(** * Backtest platform: the dashboard's statistics and the strategy builder

    A shallow embedding of the TypeScript front end (performance dashboard,
    drawdown chart, P&L histogram, risk metric cards, logic builder) and of
    the execution engine's state machine, with the properties the
    specification states about them.

    Numbers.  A JavaScript number is modelled by [JS.number]: a finite value
    is an exact rational, next to [NaN] and the two infinities.  Rounding of
    the binary64 format, overflow of finite arithmetic and the sign of zero
    are not modelled; every formula below is read over exact rationals. *)

From Stdlib Require Import QArith Qcanon Qround ZArith Lia Lqa Ascii Sorted.
From stdpp Require Import gmap strings list pretty.

Local Open Scope Qc_scope.

(** ** JavaScript values *)

Module JS.

Inductive number : Type :=
| Fin (q : Qc)
| PInf
| NInf
| NaN.

#[global] Instance number_eq_dec : EqDecision number.
Proof. solve_decision. Defined.

Definition qz (z : Z) : Qc := Q2Qc (inject_Z z).

(** [num z] is the integer literal [z]; [dec n d] the literal [n/d]. *)
Definition num (z : Z) : number := Fin (qz z).
Definition dec (n d : Z) : number := Fin (qz n / qz d).
Definition of_nat (n : nat) : number := num (Z.of_nat n).

Definition isNaN (x : number) : bool :=
  match x with NaN => true | _ => false end.

Definition isFinite (x : number) : bool :=
  match x with Fin _ => true | _ => false end.

Definition neg (x : number) : number :=
  match x with
  | Fin a => Fin (- a)
  | PInf => NInf
  | NInf => PInf
  | NaN => NaN
  end.

Definition add (x y : number) : number :=
  match x, y with
  | NaN, _ | _, NaN => NaN
  | Fin a, Fin b => Fin (a + b)
  | PInf, NInf | NInf, PInf => NaN
  | PInf, _ | _, PInf => PInf
  | NInf, _ | _, NInf => NInf
  end.

Definition sub (x y : number) : number := add x (neg y).

Definition mul (x y : number) : number :=
  match x, y with
  | NaN, _ | _, NaN => NaN
  | Fin a, Fin b => Fin (a * b)
  | Fin a, PInf | PInf, Fin a =>
      match a ?= qz 0 with Eq => NaN | Gt => PInf | Lt => NInf end
  | Fin a, NInf | NInf, Fin a =>
      match a ?= qz 0 with Eq => NaN | Gt => NInf | Lt => PInf end
  | PInf, PInf | NInf, NInf => PInf
  | PInf, NInf | NInf, PInf => NInf
  end.

(** Division; a zero divisor counts as +0. *)
Definition div (x y : number) : number :=
  match x, y with
  | NaN, _ | _, NaN => NaN
  | Fin a, Fin b =>
      match b ?= qz 0 with
      | Eq => match a ?= qz 0 with Eq => NaN | Gt => PInf | Lt => NInf end
      | _ => Fin (a / b)
      end
  | Fin _, PInf | Fin _, NInf => Fin (qz 0)
  | PInf, PInf | PInf, NInf | NInf, PInf | NInf, NInf => NaN
  | PInf, Fin b => match b ?= qz 0 with Lt => NInf | _ => PInf end
  | NInf, Fin b => match b ?= qz 0 with Lt => PInf | _ => NInf end
  end.

(** [x < y]; every comparison with [NaN] is false. *)
Definition ltb (x y : number) : bool :=
  match x, y with
  | NaN, _ | _, NaN => false
  | Fin a, Fin b => match a ?= b with Lt => true | _ => false end
  | NInf, NInf => false
  | NInf, _ => true
  | _, NInf => false
  | PInf, _ => false
  | Fin _, PInf => true
  end.

(** [x <= y]. *)
Definition leb (x y : number) : bool :=
  match x, y with
  | NaN, _ | _, NaN => false
  | Fin a, Fin b => match a ?= b with Gt => false | _ => true end
  | NInf, _ => true
  | _, PInf => true
  | PInf, _ => false
  | Fin _, NInf => false
  end.

(** [x > y] *)
Definition gtb (x y : number) : bool := ltb y x.

(** [Math.max(x, y)] and [Math.min(x, y)]: [NaN] if an argument is. *)
Definition Math_max (x y : number) : number :=
  match x, y with
  | NaN, _ | _, NaN => NaN
  | _, _ => if ltb x y then y else x
  end.

Definition Math_min (x y : number) : number :=
  match x, y with
  | NaN, _ | _, NaN => NaN
  | _, _ => if ltb y x then y else x
  end.

(** [Math.min(...xs)]: [Infinity] when there is no argument. *)
Definition Math_min_spread (xs : list number) : number :=
  fold_left Math_min xs PInf.

(** [parseFloat(x.toFixed(2))]: the nearest multiple of 1/100, a tie going
    away from zero; from 10^21 on [toFixed] prints the number itself. *)
Definition round2_abs (a : Qc) : Qc :=
  qz (Qfloor (this (a * qz 100 + qz 1 / qz 2))) / qz 100.

Definition toFixed2 (x : number) : number :=
  match x with
  | Fin a =>
      let m := if ltb x (num 0) then - a else a in
      if leb (num (10 ^ 21)) (Fin m) then x
      else if ltb x (num 0) then Fin (- round2_abs m) else Fin (round2_abs m)
  | _ => x
  end.

(** The numbers that count as false: [0] and [NaN]. *)
Definition falsy (x : number) : bool :=
  match x with
  | NaN => true
  | Fin a => match a ?= qz 0 with Eq => true | _ => false end
  | _ => false
  end.

(** A property that may be missing is an [option]: [undefined] and [null]
    are [None].  [v ?? 0]: *)
Definition nullish0 (v : option number) : number :=
  match v with Some x => x | None => num 0 end.

(** [v || 0] *)
Definition or0 (v : option number) : number :=
  match v with
  | Some x => if falsy x then num 0 else x
  | None => num 0
  end.

(** Truthiness of an optional string, and [s || ] the empty string. *)
Definition truthy_str (s : option string) : bool :=
  match s with
  | Some s => negb (String.eqb s EmptyString)
  | None => false
  end.

Definition or_empty (s : option string) : string :=
  match s with Some s => s | None => EmptyString end.

(** [s.split(c)] for a one-character separator. *)
Fixpoint split_on (c : Ascii.ascii) (s : string) : list string :=
  match s with
  | EmptyString => [EmptyString]
  | String a rest =>
      if Ascii.eqb a c then EmptyString :: split_on c rest
      else match split_on c rest with
           | [] => [String a EmptyString]
           | hd :: tl => String a hd :: tl
           end
  end.

(** [x >= y] *)
Definition geb (x y : number) : bool := leb y x.

(** [Math.max(...xs)]: [-Infinity] when there is no argument. *)
Definition Math_max_spread (xs : list number) : number :=
  fold_left Math_max xs NInf.

Definition Math_abs (x : number) : number :=
  match x with
  | Fin a => if ltb x (num 0) then Fin (- a) else x
  | PInf | NInf => PInf
  | NaN => NaN
  end.

Definition Math_floor (x : number) : number :=
  match x with
  | Fin a => Fin (qz (Qfloor (this a)))
  | _ => x
  end.

(** [Math.round(x)]: the nearest integer, a tie going up. *)
Definition Math_round (x : number) : number :=
  match x with
  | Fin a => Fin (qz (Qfloor (this (a + qz 1 / qz 2))))
  | _ => x
  end.

(** [xs.filter((_, index) => p index)], the index starting at [i]. *)
Fixpoint filter_by_index {A : Type} (p : nat -> bool) (i : nat) (xs : list A)
  : list A :=
  match xs with
  | [] => []
  | x :: rest =>
      if p i then x :: filter_by_index p (S i) rest
      else filter_by_index p (S i) rest
  end.

(** [xs.reduce(f)] without an initial value, on a non-empty array; on an
    empty one JavaScript throws a [TypeError], [None] here. *)
Definition reduce1 {A : Type} (f : A -> A -> A) (xs : list A) : option A :=
  match xs with
  | [] => None
  | x :: rest => Some (fold_left f rest x)
  end.

(** [xs.sort(cmp)]: the sort is stable; [cmp a b > 0] puts [b] first. *)
Section Sort.
Context {A : Type} (cmp : A -> A -> Z).

Fixpoint insert_sorted (x : A) (l : list A) : list A :=
  match l with
  | [] => [x]
  | y :: l' =>
      if (0 <? cmp x y)%Z then y :: insert_sorted x l' else x :: l
  end.

Definition Array_sort (l : list A) : list A :=
  foldr insert_sorted [] l.
End Sort.

(** The sign of what a comparator returns, as [sort] reads it: a negative
    result puts the first argument first, a positive one the second, and
    [NaN] counts as [+0]. *)
Definition sort_sign (v : number) : Z :=
  match v with
  | Fin a => match (a ?= qz 0)%Qc with Lt => (-1)%Z | Eq => 0%Z | Gt => 1%Z end
  | PInf => 1%Z
  | NInf => (-1)%Z
  | NaN => 0%Z
  end.

(** [s.includes(c)] for a character. *)
Fixpoint includes_char (c : Ascii.ascii) (s : string) : bool :=
  match s with
  | EmptyString => false
  | String a rest => Ascii.eqb a c || includes_char c rest
  end.

End JS.

Import JS.

(** The operations on numbers are not unfolded by simplification. *)
Arguments add : simpl never.
Arguments sub : simpl never.
Arguments mul : simpl never.
Arguments div : simpl never.
Arguments ltb : simpl never.
Arguments leb : simpl never.
Arguments gtb : simpl never.
Arguments Math_max : simpl never.
Arguments Math_min : simpl never.
Arguments toFixed2 : simpl never.

(** ** types.ts *)

Module Types.

(** [Trade]: the fields the dashboard reads.  [pnl_pct] is declared a
    number, but every reader guards it with [?? 0] or [|| 0], so it is
    optional here as well. *)
Record Trade : Type := mkTrade {
  id : string;
  pnl_pct : option number;
  timestamp : option string;
  entry_time : option string;
  exit_time : option string
}.

#[global] Instance Trade_eq_dec : EqDecision Trade.
Proof. solve_decision. Defined.

(** A property value of a metrics object. *)
Inductive value : Type :=
| VUndefined
| VNull
| VNumber (n : number).

#[global] Instance value_eq_dec : EqDecision value.
Proof. solve_decision. Defined.

(** [Record<string, number>]: the entries in insertion order, which is the
    order of [Object.entries]. *)
Definition Metrics : Type := list (string * value).

(** [metrics.key] *)
Fixpoint get (metrics : Metrics) (key : string) : value :=
  match metrics with
  | [] => VUndefined
  | (k, v) :: rest => if String.eqb k key then v else get rest key
  end.

(** [v || 0] on a property value. *)
Definition value_or0 (v : value) : number :=
  match v with
  | VNumber n => or0 (Some n)
  | _ => num 0
  end.

(** [Condition] of the logic builder. *)
Record Condition : Type := mkCondition {
  left : string;
  op : string;
  right : string
}.

End Types.

Import Types.

(** ** components/PerformanceDashboard/DrawdownChart.tsx *)

Module DrawdownChart.

Record DrawdownData : Type := mkDrawdownData {
  timestamp : string;
  drawdown : number
}.

#[global] Instance DrawdownData_eq_dec : EqDecision DrawdownData.
Proof. solve_decision. Defined.

(** The literal used when [data] is empty. *)
Definition fallback : list DrawdownData :=
  [ mkDrawdownData "2024-01" (num 0);
    mkDrawdownData "2024-02" (dec (-25) 10);
    mkDrawdownData "2024-03" (dec (-12) 10);
    mkDrawdownData "2024-04" (dec (-58) 10);
    mkDrawdownData "2024-05" (dec (-31) 10);
    mkDrawdownData "2024-06" (dec (-8) 10);
    mkDrawdownData "2024-07" (dec (-42) 10);
    mkDrawdownData "2024-08" (dec (-23) 10);
    mkDrawdownData "2024-09" (dec (-15) 10);
    mkDrawdownData "2024-10" (dec (-37) 10);
    mkDrawdownData "2024-11" (dec (-9) 10);
    mkDrawdownData "2024-12" (dec (-21) 10) ].

Definition sampleData (data : list DrawdownData) : list DrawdownData :=
  if (0 <? length data)%nat then data else fallback.

Definition maxDrawdown (data : list DrawdownData) : number :=
  Math_min_spread (map drawdown (sampleData data)).

Definition avgDrawdown (data : list DrawdownData) : number :=
  div (fold_left (fun sum d => add sum (drawdown d)) (sampleData data) (num 0))
      (of_nat (length (sampleData data))).

End DrawdownChart.

(** ** components/PerformanceDashboard/PnLHistogram.tsx *)

Module PnLHistogram.

Record Bin : Type := mkBin {
  min : number;
  max : number;
  bin_range : string;
  bin_color : string
}.

Record HistogramBar : Type := mkBar {
  range : string;
  count : nat;
  color : string
}.

Definition demo : list HistogramBar :=
  [ mkBar "< -5%" 2 "#dc2626";
    mkBar "-5% to -3%" 5 "#ea580c";
    mkBar "-3% to -1%" 8 "#f59e0b";
    mkBar "-1% to 0%" 12 "#fbbf24";
    mkBar "0% to 1%" 15 "#84cc16";
    mkBar "1% to 3%" 10 "#22c55e";
    mkBar "3% to 5%" 6 "#16a34a";
    mkBar "> 5%" 3 "#15803d" ].

Definition bins : list Bin :=
  [ mkBin NInf (num (-5)) "< -5%" "#dc2626";
    mkBin (num (-5)) (num (-3)) "-5% to -3%" "#ea580c";
    mkBin (num (-3)) (num (-1)) "-3% to -1%" "#f59e0b";
    mkBin (num (-1)) (num 0) "-1% to 0%" "#fbbf24";
    mkBin (num 0) (num 1) "0% to 1%" "#84cc16";
    mkBin (num 1) (num 3) "1% to 3%" "#22c55e";
    mkBin (num 3) (num 5) "3% to 5%" "#16a34a";
    mkBin (num 5) PInf "> 5%" "#15803d" ].

(** [val > bin.min && val <= bin.max] *)
Definition in_bin (bin : Bin) (val : number) : bool :=
  gtb val (min bin) && leb val (max bin).

Definition pnlValues (trades : list Trade) : list number :=
  map (fun t => nullish0 (pnl_pct t)) trades.

Definition createHistogramData (trades : list Trade) : list HistogramBar :=
  if (length trades =? 0)%nat then demo
  else
    map (fun bin =>
           mkBar (bin_range bin)
                 (length (List.filter (in_bin bin) (pnlValues trades)))
                 (bin_color bin))
        bins.

Definition histogramData (trades : list Trade) : list HistogramBar :=
  createHistogramData trades.

(** [xs.filter((_, index) => p index)] *)
Fixpoint filter_index {A : Type} (p : nat -> bool) (i : nat) (xs : list A) : list A :=
  match xs with
  | [] => []
  | x :: rest =>
      if p i then x :: filter_index p (S i) rest else filter_index p (S i) rest
  end.

(** [bars.reduce((sum, bin) => sum + bin.count, 0)] *)
Definition sum_counts (bars : list HistogramBar) : nat :=
  fold_left (fun sum bin => (sum + count bin)%nat) bars 0%nat.

Definition totalTrades (trades : list Trade) : nat :=
  sum_counts (histogramData trades).

Definition winningTrades (trades : list Trade) : nat :=
  sum_counts (filter_index (fun index => (4 <=? index)%nat) 0 (histogramData trades)).


Definition winRate (trades : list Trade) : number :=
  if (0 <? totalTrades trades)%nat
  then mul (div (of_nat (winningTrades trades)) (of_nat (totalTrades trades))) (num 100)
  else num 50.

(** The footer blocks.  Each shows a text: the average to two decimals, or
    the sample text ['2.1'] ([ '-1.8' ]) when there is no trade; here the
    number that text prints.  [Math.max(1, n)] keeps the divisor from 0. *)
Definition averageWinner (trades : list Trade) : number :=
  if (0 <? length trades)%nat
  then
    toFixed2
      (div (fold_left (fun sum t => add sum (nullish0 (pnl_pct t)))
              (List.filter (fun t => gtb (nullish0 (pnl_pct t)) (num 0)) trades)
              (num 0))
           (Math_max (num 1)
              (of_nat (length (List.filter
                                 (fun t => gtb (nullish0 (pnl_pct t)) (num 0))
                                 trades)))))
  else dec 21 10.

Definition averageLoser (trades : list Trade) : number :=
  if (0 <? length trades)%nat
  then
    toFixed2
      (div (fold_left (fun sum t => add sum (nullish0 (pnl_pct t)))
              (List.filter (fun t => ltb (nullish0 (pnl_pct t)) (num 0)) trades)
              (num 0))
           (Math_max (num 1)
              (of_nat (length (List.filter
                                 (fun t => ltb (nullish0 (pnl_pct t)) (num 0))
                                 trades)))))
  else dec (-18) 10.

End PnLHistogram.

(** ** components/PerformanceDashboard/RiskMetricCards.tsx *)

Module RiskMetricCards.

(** [isNaN(value)] on a property value: [undefined] converts to [NaN],
    [null] to [0]. *)
Definition isNaN_value (v : value) : bool :=
  match v with
  | VUndefined => true
  | VNull => false
  | VNumber n => isNaN n
  end.

Definition is_undefined (v : value) : bool :=
  match v with VUndefined => true | _ => false end.

Definition is_null (v : value) : bool :=
  match v with VNull => true | _ => false end.

Definition validMetrics (metrics : Metrics) : list (string * value) :=
  List.filter
    (fun entry =>
       negb (is_undefined (snd entry)) && negb (is_null (snd entry))
       && negb (isNaN_value (snd entry)))
    metrics.

(** What the component draws: the placeholder, or one card per valid entry
    with the value handed to the formatter. *)
Inductive Rendered : Type :=
| NoRiskMetrics
| Cards (cards : list (string * value)).

Definition RiskMetricCards (metrics : Metrics) : Rendered :=
  if (length (validMetrics metrics) =? 0)%nat then NoRiskMetrics
  else Cards (validMetrics metrics).

(** The numbers that reach the screen. *)
Definition rendered_values (r : Rendered) : list value :=
  match r with
  | NoRiskMetrics => []
  | Cards cards => map snd cards
  end.

End RiskMetricCards.

(** ** components/StrategyBuilder/LogicBuilder.tsx *)

Module LogicBuilder.

(** [OPERATORS]: value and label of each option of the operator select. *)
Definition OPERATORS : list (string * string) :=
  [ (">", "Greater than (>)");
    ("<", "Less than (<)");
    (">=", "Greater or equal (>=)");
    ("<=", "Less or equal (<=)");
    ("==", "Equal to (==)");
    ("cross_above", "Cross above");
    ("cross_below", "Cross below") ].

(** The values the select can put into [condition.op]. *)
Definition offered : list string := map fst OPERATORS.

(** [addCondition]: a new row starts with the operator [>]. *)
Definition newCondition : Condition := mkCondition "rsi" ">" "70".

Definition addCondition (currentLogic : list Condition) : list Condition :=
  currentLogic ++ [newCondition].

Definition INDICATORS : list string :=
  [ "rsi"; "macd_line"; "macd_signal"; "sma_50"; "ema_20"; "ema_50";
    "bb_upper"; "bb_lower"; "bb_middle"; "stoch_k"; "stoch_d"; "adx";
    "price"; "volume" ].

(** [removeCondition]: [currentLogic.filter((_, i) => i !== index)]. *)
Definition removeCondition (currentLogic : list Condition) (index : nat)
  : list Condition :=
  filter_by_index (fun i => negb (i =? index)%nat) 0 currentLogic.

(** [keyof Condition] *)
Inductive Field : Type :=
| FieldLeft
| FieldOp
| FieldRight.

(** [{ ...c, [field]: value }] *)
Definition with_field (c : Condition) (field : Field) (v : string) : Condition :=
  match field with
  | FieldLeft => mkCondition v (op c) (right c)
  | FieldOp => mkCondition (left c) v (right c)
  | FieldRight => mkCondition (left c) (op c) v
  end.

(** [updateCondition]: a copy of the list with the row at [index] updated.
    The rows call it with their own index; past the end the JavaScript array
    would grow by an object that has only [field], which is no [Condition]:
    [None]. *)
Definition updateCondition (logic : list Condition) (index : nat)
  (field : Field) (v : string) : option (list Condition) :=
  match logic !! index with
  | Some c => Some (<[index := with_field c field v]> logic)
  | None => None
  end.

(** What the user can do to a condition group: add a row, delete a row, pick
    an indicator or an operator from the selects of a row, type a right-hand
    side. *)
Inductive ui_step : list Condition -> list Condition -> Prop :=
| ui_add (logic : list Condition) :
    ui_step logic (addCondition logic)
| ui_remove (logic : list Condition) (index : nat) :
    (index < length logic)%nat ->
    ui_step logic (removeCondition logic index)
| ui_select_left (logic logic' : list Condition) (index : nat) (v : string) :
    In v INDICATORS ->
    updateCondition logic index FieldLeft v = Some logic' ->
    ui_step logic logic'
| ui_select_op (logic logic' : list Condition) (index : nat) (v : string) :
    In v offered ->
    updateCondition logic index FieldOp v = Some logic' ->
    ui_step logic logic'
| ui_type_right (logic logic' : list Condition) (index : nat) (v : string) :
    updateCondition logic index FieldRight v = Some logic' ->
    ui_step logic logic'.

(** The groups the user can reach from the empty group the strategy builder
    page starts with. *)
Inductive reachable : list Condition -> Prop :=
| reach_start : reachable []
| reach_step (logic logic' : list Condition) :
    reachable logic -> ui_step logic logic' -> reachable logic'.

End LogicBuilder.

(** ** components/PerformanceDashboard/PerformanceDashboard.tsx *)

Module PerformanceDashboard.

Import DrawdownChart.

(** The callback of [trades.map] updates [cumulativePnl] and [peak], declared
    outside it: they are threaded through the recursion, with the index. *)
Fixpoint drawdownSeries_map (cumulativePnl peak : number) (idx : nat)
  (trades : list Trade) : list DrawdownData :=
  match trades with
  | [] => []
  | trade :: rest =>
      let cumulativePnl := add cumulativePnl (nullish0 (pnl_pct trade)) in
      let peak := Math_max peak cumulativePnl in
      let drawdown :=
        if gtb peak (num 0)
        then mul (div (sub cumulativePnl peak) peak) (num 100)
        else num 0 in
      mkDrawdownData
        (if truthy_str (Types.timestamp trade)
         then or_empty (Types.timestamp trade)
         else "T" +:+ pretty (idx + 1)%nat)
        (if isFinite drawdown then drawdown else num 0)
      :: drawdownSeries_map cumulativePnl peak (S idx) rest
  end.

Definition drawdownSeries (trades : list Trade) : list DrawdownData :=
  drawdownSeries_map (num 0) (num 0) 0 trades.

Definition totalTrades (trades : list Trade) : nat := length trades.

Definition winningTrades (trades : list Trade) : nat :=
  length (List.filter (fun t => gtb (nullish0 (pnl_pct t)) (num 0)) trades).

Definition winRate (trades : list Trade) : number :=
  if (0 <? totalTrades trades)%nat
  then mul (div (of_nat (winningTrades trades)) (of_nat (totalTrades trades))) (num 100)
  else num 0.

Definition totalReturn (trades : list Trade) : number :=
  fold_left (fun sum t => add sum (nullish0 (pnl_pct t))) trades (num 0).

Definition avgReturn (trades : list Trade) : number :=
  if (0 <? totalTrades trades)%nat
  then div (totalReturn trades) (of_nat (totalTrades trades))
  else num 0.

(** The Best Trade and Worst Trade of the insights, drawn when there are
    trades. *)
Definition bestTrade (trades : list Trade) : number :=
  Math_max_spread (map (fun t => nullish0 (pnl_pct t)) trades).

Definition worstTrade (trades : list Trade) : number :=
  Math_min_spread (map (fun t => nullish0 (pnl_pct t)) trades).

(** The Max Drawdown line of the chart the component embeds:
    [<DrawdownChart data={drawdownSeries} />]. *)
Definition chart_maxDrawdown (trades : list Trade) : number :=
  DrawdownChart.maxDrawdown (drawdownSeries trades).

(** The guard under which the component is mounted, the same on the
    strategy builder page, in the results panel and on the performance
    page: [trades.length > 0 && Object.keys(metrics).length > 0].  The
    component hands its [trades] on to [<PnLHistogram>] and to
    [<TradeDurationChart>] as they are. *)
Definition mounted (trades : list Trade) (metrics : Metrics) : bool :=
  (0 <? length trades)%nat && (0 <? length metrics)%nat.

End PerformanceDashboard.

(** ** app/performance-dashboard/page.tsx *)

Module Page.

Import DrawdownChart.

Record HeatmapPoint : Type := mkHeatmapPoint {
  x : string;
  y : string;
  value : number
}.

#[global] Instance HeatmapPoint_eq_dec : EqDecision HeatmapPoint.
Proof. solve_decision. Defined.

(** A [Map<string, number>]: the entries in insertion order; [set] on a
    present key keeps its place. *)
Fixpoint Map_get (m : list (string * number)) (key : string) : option number :=
  match m with
  | [] => None
  | (k, v) :: rest => if String.eqb k key then Some v else Map_get rest key
  end.

Fixpoint Map_set (m : list (string * number)) (key : string) (v : number)
  : list (string * number) :=
  match m with
  | [] => [(key, v)]
  | (k, v') :: rest =>
      if String.eqb k key then (k, v) :: rest else (k, v') :: Map_set rest key v
  end.

Section Environment.

(** What the page takes from its environment: [dayjs] (the texts of
    [ts.format("ddd")], [ts.isoWeek()] and [ts.year()] for a time stamp) and
    the collation behind [String.prototype.localeCompare]. *)
Variable dayjs_ddd : string -> string.
Variable dayjs_isoWeek : string -> string.
Variable dayjs_year : string -> string.
Variable localeCompare : string -> string -> Z.

(** The body of [trades.forEach] in [processHeatmapData]. *)
Definition heatmap_step (heatmapMap : list (string * number)) (trade : Trade)
  : list (string * number) :=
  if negb (truthy_str (entry_time trade)) then heatmapMap
  else
    let ts := or_empty (entry_time trade) in
    let weekday := dayjs_ddd ts in
    let week := "Week " +:+ dayjs_isoWeek ts +:+ "-" +:+ dayjs_year ts in
    let key := weekday +:+ "|" +:+ week in
    Map_set heatmapMap key
      (add (or0 (Map_get heatmapMap key)) (nullish0 (pnl_pct trade))).

Definition heatmap_entry (entry : string * number) : HeatmapPoint :=
  let parts := split_on "|"%char (fst entry) in
  mkHeatmapPoint (nth 0 parts EmptyString) (nth 1 parts EmptyString)
                 (toFixed2 (snd entry)).

Definition processHeatmapData (trades : list Trade) : list HeatmapPoint :=
  map heatmap_entry (fold_left heatmap_step trades []).

(** The callback of [.map] in [processDrawdownData] updates [equity] and
    [peak], declared outside it. *)
Fixpoint processDrawdownData_map (equity peak : number) (trades : list Trade)
  : list DrawdownData :=
  match trades with
  | [] => []
  | trade :: rest =>
      let equity :=
        mul equity (add (num 1) (div (or0 (pnl_pct trade)) (num 100))) in
      let peak := Math_max peak equity in
      let drawdown :=
        if gtb peak (num 0)
        then mul (div (sub peak equity) peak) (num 100)
        else num 0 in
      mkDrawdownData
        (match exit_time trade with
         | Some s => hd EmptyString (split_on "T"%char s)
         | None => EmptyString
         end)
        (toFixed2 drawdown)
      :: processDrawdownData_map equity peak rest
  end.

Definition has_exit_time (trade : Trade) : bool := truthy_str (exit_time trade).

Definition by_exit_time (a b : Trade) : Z :=
  localeCompare (or_empty (exit_time a)) (or_empty (exit_time b)).

Definition processDrawdownData (trades : list Trade) : list DrawdownData :=
  processDrawdownData_map (num 100) (num 100)
    (Array_sort by_exit_time (List.filter has_exit_time trades)).

End Environment.

(** The filter of [loadPerformanceData] and of the debounced effect:
    [Math.abs(trade.pnl_pct || 0) >= filters.minTradeSize]. *)
Definition by_minTradeSize (minTradeSize : number) (trades : list Trade)
  : list Trade :=
  List.filter (fun trade => geb (Math_abs (or0 (pnl_pct trade))) minTradeSize)
              trades.

(** [performanceData]: the part [summaryStats] reads. *)
Record PerformanceData : Type := mkPerformanceData {
  trades : list Trade;
  metrics : Metrics
}.

Record SummaryStats : Type := mkSummaryStats {
  totalTrades : nat;
  winRate : number;
  totalReturn : number;
  avgReturn : number;
  sharpeRatio : number;
  maxDrawdown : number
}.

Definition summaryStats (performanceData : PerformanceData) : SummaryStats :=
  let trades := trades performanceData in
  let metrics := metrics performanceData in
  let totalTrades := length trades in
  let winningTrades :=
    length (List.filter (fun t => gtb (nullish0 (pnl_pct t)) (num 0)) trades) in
  let totalReturn :=
    fold_left (fun sum t => add sum (nullish0 (pnl_pct t))) trades (num 0) in
  mkSummaryStats
    totalTrades
    (if (0 <? totalTrades)%nat
     then mul (div (of_nat winningTrades) (of_nat totalTrades)) (num 100)
     else num 0)
    totalReturn
    (if (0 <? totalTrades)%nat then div totalReturn (of_nat totalTrades) else num 0)
    (value_or0 (get metrics "sharpe_ratio"))
    (value_or0 (get metrics "max_drawdown")).



(** The Max Drawdown line of the detailed view:
    [<DrawdownChart data={performanceData.drawdownData} />], with
    [drawdownData = processDrawdownData(trades)]. *)
Definition chart_maxDrawdown (localeCompare : string -> string -> Z)
  (trades : list Trade) : number :=
  DrawdownChart.maxDrawdown (processDrawdownData localeCompare trades).

End Page.

(** ** components/PerformanceDashboard/TradeDurationChart.tsx *)

Module TradeDurationChart.

Record TradeWithDuration : Type := mkTradeWithDuration {
  trade : Trade;
  durationMinutes : number
}.

Record Bucket : Type := mkBucket {
  min : number;
  max : number;
  label : string;
  bucket_color : string
}.

Record DurationBucket : Type := mkDurationBucket {
  range : string;
  count : nat;
  avgReturn : number;
  color : string
}.

#[global] Instance DurationBucket_eq_dec : EqDecision DurationBucket.
Proof. solve_decision. Defined.

Definition buckets : list Bucket :=
  [ mkBucket (num 0) (num 5) "0-5m" "#60A5FA";
    mkBucket (num 5) (num 15) "5-15m" "#34D399";
    mkBucket (num 15) (num 30) "15-30m" "#FBBF24";
    mkBucket (num 30) (num 60) "30-60m" "#F87171";
    mkBucket (num 60) (num 180) "1-3h" "#A78BFA";
    mkBucket (num 180) (num 480) "3-8h" "#F472B6";
    mkBucket (num 480) PInf "8h+" "#9CA3AF" ].

(** [durationMinutes >= bucket.min && durationMinutes < bucket.max] *)
Definition in_bucket (bucket : Bucket) (d : number) : bool :=
  geb d (min bucket) && ltb d (max bucket).

Section Environment.

(** [dayjs(exit).diff(dayjs(entry), "minute")] for two time stamps, from the
    environment. *)
Variable diff_minute : string -> string -> number.

Definition has_both_times (t : Trade) : bool :=
  truthy_str (entry_time t) && truthy_str (exit_time t).

Definition tradesWithDuration (trades : list Trade) : list TradeWithDuration :=
  map (fun t =>
         mkTradeWithDuration t
           (diff_minute (or_empty (exit_time t)) (or_empty (entry_time t))))
      (List.filter has_both_times trades).

(** The callback of [buckets.map]. *)
Definition bucketData_of (withDuration : list TradeWithDuration) (bucket : Bucket)
  : DurationBucket :=
  let tradesInBucket :=
    List.filter (fun t => in_bucket bucket (durationMinutes t)) withDuration in
  let avgReturn :=
    if (0 <? length tradesInBucket)%nat
    then div (fold_left (fun sum t => add sum (nullish0 (pnl_pct (trade t))))
                        tradesInBucket (num 0))
             (of_nat (length tradesInBucket))
    else num 0 in
  mkDurationBucket (label bucket) (length tradesInBucket) (toFixed2 avgReturn)
                   (bucket_color bucket).

Definition durationData (trades : list Trade) : list DurationBucket :=
  let withDuration := tradesWithDuration trades in
  if (length withDuration =? 0)%nat then []
  else
    List.filter (fun bucket => (0 <? count bucket)%nat)
                (map (bucketData_of withDuration) buckets).

(** Total Analyzed. *)
Definition totalTrades (trades : list Trade) : nat :=
  fold_left (fun sum bucket => (sum + count bucket)%nat) (durationData trades) 0%nat.

(** Best Duration; the component returns before it when [durationData] is
    empty. *)
Definition bestPerformingDuration (trades : list Trade) : option DurationBucket :=
  reduce1 (fun best current =>
             if gtb (avgReturn current) (avgReturn best) then current else best)
          (durationData trades).

(** Most Common Duration. *)
Definition mostCommonDuration (trades : list Trade) : option DurationBucket :=
  reduce1 (fun max current =>
             if (count max <? count current)%nat then current else max)
          (durationData trades).

(** The comparator of the list of average returns:
    [(a, b) => b.avgReturn - a.avgReturn]. *)
Definition by_avgReturn (a b : DurationBucket) : Z :=
  sort_sign (sub (avgReturn b) (avgReturn a)).


(** For that list the JSX calls [durationData.sort(...)], which sorts the
    memoized array itself, and [<BarChart data={durationData}>] was handed
    that same array: when the body of the component has run, the array the
    chart draws its bars from is the sorted one. *)
Definition drawnData (trades : list Trade) : list DurationBucket :=
  Array_sort by_avgReturn (durationData trades).

(** [.slice(0, 3)]: the rows of Avg Return by Duration. *)
Definition avgReturnByDuration (trades : list Trade) : list DurationBucket :=
  take 3 (drawnData trades).

End Environment.

End TradeDurationChart.

(** ** components/PerformanceDashboard/ReturnHeatmap.tsx *)

Module ReturnHeatmap.

Definition weekdays : list string :=
  ["Mon"; "Tue"; "Wed"; "Thu"; "Fri"; "Sat"; "Sun"].

Definition values (data : list Page.HeatmapPoint) : list number :=
  map Page.value data.

(** [Math.min(...values, 0)] and [Math.max(...values, 0)] *)
Definition minValue (data : list Page.HeatmapPoint) : number :=
  Math_min_spread (values data ++ [num 0]).

Definition maxValue (data : list Page.HeatmapPoint) : number :=
  Math_max_spread (values data ++ [num 0]).

Definition absMax (data : list Page.HeatmapPoint) : number :=
  Math_max (Math_abs (minValue data)) (Math_abs (maxValue data)).

(** [dataMap]: a [Map] filled with [dataMap.set(`${d.x}|${d.y}`, d.value)]. *)
Definition cell_key (x y : string) : string := x +:+ "|" +:+ y.

Definition dataMap (data : list Page.HeatmapPoint) : list (string * number) :=
  fold_left (fun m d => Page.Map_set m (cell_key (Page.x d) (Page.y d)) (Page.value d))
            data [].

(** The value drawn in the cell of a weekday and a week. *)
Definition cell (data : list Page.HeatmapPoint) (day week : string) : option number :=
  Page.Map_get (dataMap data) (cell_key day week).

(** A colour: a hexadecimal text, or the numbers put into
    [rgba(r, g, b, alpha)]. *)
Inductive Color : Type :=
| Hex (code : string)
| Rgba (r g b alpha : number).

Definition getColor (data : list Page.HeatmapPoint) (value : option number) : Color :=
  match value with
  | None => Hex "#374151"
  | Some value =>
      if ltb (Math_abs value) (dec 1 100) then Hex "#4B5563"
      else
        let intensity :=
          Math_min (div (Math_abs value) (Math_max (absMax data) (num 1))) (num 1) in
        let baseAlpha := dec 3 10 in
        let alpha := Math_min (add (mul intensity (dec 7 10)) baseAlpha) (num 1) in
        if gtb value (num 0)
        then
          let greenIntensity := Math_min (mul intensity (num 255)) (num 255) in
          Rgba (num 34)
               (Math_floor (add (num 150) (mul greenIntensity (dec 3 10))))
               (num 94) alpha
        else
          let redIntensity := Math_min (mul intensity (num 255)) (num 255) in
          Rgba (Math_floor (add (num 200) (mul redIntensity (dec 2 10))))
               (num 68) (num 68) alpha
  end.

(** [stats] *)
Definition shown_values (data : list Page.HeatmapPoint) : list number :=
  List.filter (fun v => gtb (Math_abs v) (dec 1 100)) (values data).

Definition positiveCount (data : list Page.HeatmapPoint) : nat :=
  length (List.filter (fun v => gtb v (num 0)) (shown_values data)).

Definition negativeCount (data : list Page.HeatmapPoint) : nat :=
  length (List.filter (fun v => ltb v (num 0)) (shown_values data)).

Definition avgReturn (data : list Page.HeatmapPoint) : number :=
  if (0 <? length (shown_values data))%nat
  then div (fold_left (fun sum v => add sum v) (shown_values data) (num 0))
           (of_nat (length (shown_values data)))
  else num 0.

Definition dayAvg (data : list Page.HeatmapPoint) (day : string) : number :=
  let dayValues :=
    map Page.value (List.filter (fun d => String.eqb (Page.x d) day) data) in
  if (0 <? length dayValues)%nat
  then div (fold_left (fun sum v => add sum v) dayValues (num 0))
           (of_nat (length dayValues))
  else num 0.

(** The accumulator of [weekdays.reduce]: the day and its average. *)
Definition bestDay_step (data : list Page.HeatmapPoint) (best : string * number)
  (day : string) : string * number :=
  if gtb (dayAvg data day) (snd best) then (day, dayAvg data day) else best.

Definition bestDay_acc (data : list Page.HeatmapPoint) : string * number :=
  fold_left (bestDay_step data) weekdays (EmptyString, NInf).

(** [bestDay.day || 'N/A'] *)
Definition bestDay (data : list Page.HeatmapPoint) : string :=
  if String.eqb (fst (bestDay_acc data)) EmptyString then "N/A"
  else fst (bestDay_acc data).

End ReturnHeatmap.

(** ** components/StrategyBuilder/RiskControls.tsx *)

Module RiskControls.

Definition getRiskColor (level : number) : string :=
  if leb level (num 3) then "text-green-400"
  else if leb level (num 7) then "text-yellow-400"
  else "text-red-400".

Definition getRiskLabel (level : number) : string :=
  if leb level (num 3) then "Conservative"
  else if leb level (num 7) then "Moderate"
  else "Aggressive".

Definition maxPosition (risk : number) : number :=
  if leb risk (num 3) then Math_round (mul risk (num 2))
  else if leb risk (num 7) then Math_round (mul risk (num 3))
  else Math_round (mul risk (num 5)).

Definition maxConcurrent (risk : number) : number :=
  if leb risk (num 3) then num 1
  else if leb risk (num 7) then num 3
  else num 5.

Definition maxDrawdown (risk : number) : string :=
  if leb risk (num 3) then "5%"
  else if leb risk (num 7) then "10%"
  else "20%".

(** [risk > 7 && (...)]: whether the High Risk Warning is drawn. *)
Definition highRiskWarning (risk : number) : bool := gtb risk (num 7).

End RiskControls.

(** ** components/StrategyBuilder/IndicatorConfigurator.tsx *)

Module IndicatorConfigurator.

(** [IND_LIST]: key, label and description. *)
Definition IND_LIST : list (string * string * string) :=
  [ ("rsi", "RSI (14)", "Relative Strength Index");
    ("macd", "MACD", "Moving Average Convergence Divergence");
    ("sma_50", "SMA 50", "Simple Moving Average 50");
    ("ema_20", "EMA 20", "Exponential Moving Average 20");
    ("ema_50", "EMA 50", "Exponential Moving Average 50");
    ("bb", "Bollinger Bands", "Bollinger Bands (20, 2)");
    ("stoch", "Stochastic", "Stochastic Oscillator");
    ("adx", "ADX", "Average Directional Index") ].

Definition keys : list string := map (fun ind => fst (fst ind)) IND_LIST.

(** The names every object inherits from [Object.prototype]; reading one of
    them from an object that has no such property of its own gives a
    function or an object, which counts as true. *)
Definition Object_prototype : list string :=
  [ "constructor"; "__defineGetter__"; "__defineSetter__"; "hasOwnProperty";
    "__lookupGetter__"; "__lookupSetter__"; "isPrototypeOf";
    "propertyIsEnumerable"; "toString"; "valueOf"; "__proto__";
    "toLocaleString" ].

(** [!!indicators[key]]; the own properties of [indicators] are a finite
    map. *)
Definition isSelected (indicators : gmap string bool) (key : string) : bool :=
  match indicators !! key with
  | Some b => b
  | None => bool_decide (key ∈ Object_prototype)
  end.

(** [toggle]: [{ ...indicators, [key]: !indicators[key] }] *)
Definition toggle (indicators : gmap string bool) (key : string)
  : gmap string bool :=
  <[key := negb (isSelected indicators key)]> indicators.

(** [clearAll]: [Object.fromEntries(IND_LIST.map(ind => [ind.key, false]))] *)
Definition clearAll : gmap string bool :=
  list_to_map (map (fun key => (key, false)) keys).

(** Selected: [Object.values(indicators).filter(Boolean).length] *)
Definition selected (indicators : gmap string bool) : nat :=
  length (List.filter (fun b : bool => b) (map snd (map_to_list indicators))).

End IndicatorConfigurator.

(** ** Arrays as shared objects

    [processHeatmapData], [processDrawdownData] and [createHistogramData]
    receive a reference to the caller's array of trades.  Here the arrays of
    trades live in a store, [filter] allocates a new array and [sort] sorts
    the array it is called on in place and returns the same reference.  The
    arrays of numbers, bars and points the functions build never alias the
    caller's array and stay values. *)

Module Heap.

Definition loc : Type := nat.

Abbreviation store := (gmap nat (list Trade)).

(** A computation reads and updates the store, or fails on a dangling
    reference. *)
Definition M (A : Type) : Type := store -> option (A * store).

#[global] Instance M_ret : MRet M := fun A a σ => Some (a, σ).

#[global] Instance M_bind : MBind M := fun A B f m σ =>
  match m σ with
  | Some (a, σ') => f a σ'
  | None => None
  end.

Definition alloc (xs : list Trade) : M loc :=
  fun σ => let l := fresh (dom σ) in Some (l, <[l := xs]> σ).

Definition read (l : loc) : M (list Trade) :=
  fun σ => match σ !! l with Some xs => Some (xs, σ) | None => None end.

Definition write (l : loc) (xs : list Trade) : M unit :=
  fun σ => match σ !! l with Some _ => Some (tt, <[l := xs]> σ) | None => None end.

(** [arr.filter(p)]: a new array. *)
Definition Array_filter (p : Trade -> bool) (arr : loc) : M loc :=
  xs ← read arr; alloc (List.filter p xs).

(** [arr.sort(cmp)]: sorts [arr] itself and returns it. *)
Definition Array_sort_in_place (cmp : Trade -> Trade -> Z) (arr : loc) : M loc :=
  xs ← read arr; _ ← write arr (Array_sort cmp xs); mret arr.

(** [arr.map(f)], [arr.forEach(f)] and [arr.length] with callbacks that only
    read the elements: the result as a value. *)
Definition Array_read_with {B : Type} (f : list Trade -> B) (arr : loc) : M B :=
  xs ← read arr; mret (f xs).

Section Environment.

Variable dayjs_ddd : string -> string.
Variable dayjs_isoWeek : string -> string.
Variable dayjs_year : string -> string.
Variable localeCompare : string -> string -> Z.

Definition processHeatmapData (trades : loc) : M (list Page.HeatmapPoint) :=
  heatmapMap ← Array_read_with
    (fun xs => fold_left (Page.heatmap_step dayjs_ddd dayjs_isoWeek dayjs_year) xs [])
    trades;
  mret (map Page.heatmap_entry heatmapMap).

Definition processDrawdownData (trades : loc) : M (list DrawdownChart.DrawdownData) :=
  filtered ← Array_filter Page.has_exit_time trades;
  sorted ← Array_sort_in_place (Page.by_exit_time localeCompare) filtered;
  Array_read_with (Page.processDrawdownData_map (num 100) (num 100)) sorted.

(** The same pipeline without the [filter], as it would be if [sort] were
    called on the argument: kept for contrast. *)
Definition sort_then_map (trades : loc) : M (list DrawdownChart.DrawdownData) :=
  sorted ← Array_sort_in_place (Page.by_exit_time localeCompare) trades;
  Array_read_with (Page.processDrawdownData_map (num 100) (num 100)) sorted.

End Environment.

Definition createHistogramData (trades : loc) : M (list PnLHistogram.HistogramBar) :=
  Array_read_with PnLHistogram.createHistogramData trades.

End Heap.

(** ** The execution engine

    The back end (the Python engine behind [/strategy/backtest]) is not part
    of the sources at hand; its bar loop is written here from the
    specification's section on the Execution Engine. *)

Module ExecutionEngine.

(** Modelled from the spec: the [Bar] of the data model (the engine's input
    type is missing from the sources). *)
Record Bar : Type := mkBar {
  timestamp : Z;
  open : Qc;
  high : Qc;
  low : Qc;
  close : Qc;
  volume : Qc
}.

(** Modelled from the spec: the [ExecutionConfig] of the data model;
    slippage and fee in basis points, the others in percent. *)
Record ExecutionConfig : Type := mkConfig {
  slippage : Qc;
  fee : Qc;
  capital : Qc;
  quantity_pct : Qc;
  take_profit : option Qc;
  stop_loss : option Qc
}.

(** Modelled from the spec: what is done with a position that is still open
    when the series ends.  The data model names both policies (force-closed
    at the last bar's close, or dropped) and asks for one to be chosen; the
    section on the Execution Engine documents the first. *)
Inductive EndOfSeriesPolicy : Type :=
| ForceClose
| DropOpen.

#[global] Instance EndOfSeriesPolicy_eq_dec : EqDecision EndOfSeriesPolicy.
Proof. solve_decision. Defined.

(** Modelled from the spec: the transient [Position], with the entry fee and
    the capital it was sized on, which the trade's [pnl_pct] needs. *)
Record Position : Type := mkPosition {
  entry_time : Z;
  entry_price : Qc;
  quantity : Qc;
  entry_fee : Qc;
  sized_on : Qc
}.

(** Modelled from the spec: why a position was closed; the end of the series
    is flagged in the trade. *)
Inductive ExitReason : Type :=
| StopLoss
| TakeProfit
| RuleExit
| EndOfSeries.

#[global] Instance ExitReason_eq_dec : EqDecision ExitReason.
Proof. solve_decision. Defined.

(** Modelled from the spec: the [Trade] the engine emits. *)
Record Trade : Type := mkTrade {
  entry_ts : Z;
  exit_ts : Z;
  trade_entry_price : Qc;
  exit_price : Qc;
  trade_quantity : Qc;
  fee_paid : Qc;
  pnl_pct : Qc;
  reason : ExitReason
}.

(** Modelled from the spec: the two states of the machine. *)
Inductive State : Type :=
| FLAT
| OPEN (p : Position).

(** Modelled from the spec: what the bar loop carries: the state, the
    capital, and the trades emitted so far, oldest first. *)
Record Engine : Type := mkEngine {
  state : State;
  cash : Qc;
  trades : list Trade
}.

(** Modelled from the spec: a figure in basis points, and one in percent. *)
Definition bps (x : Qc) : Qc := x / qz 10000.
Definition pct (x : Qc) : Qc := x / qz 100.

(** Modelled from the spec: FLAT to OPEN at bar [b]: the fill price is the
    close plus slippage, the quantity is the sized share of the capital, the
    entry fee is deducted from the capital. *)
Definition enter (cfg : ExecutionConfig) (e : Engine) (b : Bar) : Engine :=
  let price := close b * (qz 1 + bps (slippage cfg)) in
  let qty := (cash e * pct (quantity_pct cfg)) / price in
  let fee_in := price * qty * bps (fee cfg) in
  mkEngine (OPEN (mkPosition (timestamp b) price qty fee_in (cash e)))
           (cash e - fee_in)
           (trades e).

(** Modelled from the spec: the exit checks of one bar, in priority order:
    stop-loss on the low, take-profit on the high, then the exit rule at the
    close less slippage. *)
Definition exit_fill (cfg : ExecutionConfig) (p : Position) (b : Bar)
  (exit_flag : bool) : option (Qc * ExitReason) :=
  let by_rule :=
    if exit_flag
    then Some (close b * (qz 1 - bps (slippage cfg)), RuleExit)
    else None in
  let by_target :=
    match take_profit cfg with
    | Some tp =>
        let target := entry_price p * (qz 1 + pct tp) in
        if bool_decide (target <= high b) then Some (target, TakeProfit)
        else by_rule
    | None => by_rule
    end in
  match stop_loss cfg with
  | Some sl =>
      let stop := entry_price p * (qz 1 - pct sl) in
      if bool_decide (low b <= stop) then Some (stop, StopLoss) else by_target
  | None => by_target
  end.

(** Modelled from the spec: OPEN to FLAT: the trade is appended; its
    [pnl_pct] is the price return less both fees relative to the capital the
    position was sized on. *)
Definition close_position (cfg : ExecutionConfig) (e : Engine) (p : Position)
  (ts : Z) (price : Qc) (why : ExitReason) : Engine :=
  let fee_out := price * quantity p * bps (fee cfg) in
  let fees := entry_fee p + fee_out in
  let pnl :=
    (price - entry_price p) / entry_price p * qz 100
    - fees / sized_on p * qz 100 in
  mkEngine FLAT
           (cash e + quantity p * (price - entry_price p) - fee_out)
           (trades e ++
            [mkTrade (entry_time p) ts (entry_price p) price (quantity p)
                     fees pnl why]).

(** Modelled from the spec: one bar of the loop.  In FLAT an entry flag with
    capital available opens a position; in OPEN the exit checks run (they
    are made on every bar after the entry) and the entry flag is not
    consulted. *)
Definition step (cfg : ExecutionConfig) (e : Engine)
  (bar : Bar * bool * bool) : Engine :=
  let '(b, entry_flag, exit_flag) := bar in
  match state e with
  | FLAT =>
      if entry_flag && bool_decide (qz 0 < cash e) then enter cfg e b else e
  | OPEN p =>
      match exit_fill cfg p b exit_flag with
      | Some (price, why) => close_position cfg e p (timestamp b) price why
      | None => e
      end
  end.

(** Modelled from the spec: the end of the series with a position open.
    Under [ForceClose] it is closed at the final bar's close without
    slippage and the trade is flagged; under [DropOpen] it leaves no
    trade. *)
Definition finish (policy : EndOfSeriesPolicy) (cfg : ExecutionConfig)
  (e : Engine) (final : option Bar) : Engine :=
  match state e with
  | FLAT => e
  | OPEN p =>
      match policy, final with
      | ForceClose, Some b =>
          close_position cfg e p (timestamp b) (close b) EndOfSeries
      | ForceClose, None => e
      | DropOpen, _ => mkEngine FLAT (cash e) (trades e)
      end
  end.

(** Modelled from the spec: a run starts FLAT with the starting capital. *)
Definition start (cfg : ExecutionConfig) : Engine :=
  mkEngine FLAT (capital cfg) [].

(** Modelled from the spec: the bar loop over the bars with their entry and
    exit flags. *)
Definition run_bars (cfg : ExecutionConfig) (e : Engine)
  (bars : list (Bar * bool * bool)) : Engine :=
  fold_left (step cfg) bars e.

(** Modelled from the spec: a backtest run of one symbol. *)
Definition backtest (policy : EndOfSeriesPolicy) (cfg : ExecutionConfig)
  (bars : list (Bar * bool * bool)) : list Trade :=
  trades (finish policy cfg (run_bars cfg (start cfg) bars)
                 (option_map (fun bar => fst (fst bar)) (last bars))).








End ExecutionEngine.

(** ** The specification's formulas

    Written from the specification's words, to be compared with what the
    front end computes. *)

Module Spec.

Definition pnl (t : Types.Trade) : number := nullish0 (Types.pnl_pct t).

(** The sum of the per-trade [pnl_pct] values. *)
Fixpoint summed_return (trades : list Types.Trade) : number :=
  match trades with
  | [] => num 0
  | t :: rest => add (pnl t) (summed_return rest)
  end.

(** The product of [1 + pnl_i/100] over the trades. *)
Fixpoint growth (trades : list Types.Trade) : number :=
  match trades with
  | [] => num 1
  | t :: rest => mul (add (num 1) (div (pnl t) (num 100))) (growth rest)
  end.

(** Total Return % = (Π(1 + pnl_i/100) - 1) * 100. *)
Definition compounded_return (trades : list Types.Trade) : number :=
  mul (sub (growth trades) (num 1)) (num 100).

(** The number of winning trades: those with [pnl_pct > 0]. *)
Fixpoint winners (trades : list Types.Trade) : nat :=
  match trades with
  | [] => 0
  | t :: rest => if gtb (pnl t) (num 0) then S (winners rest) else winners rest
  end.


(** Every [pnl_pct] of the list is a finite number (a missing one counts
    as 0). *)
Definition finite_pnl (trades : list Types.Trade) : Prop :=
  Forall (fun t => isFinite (pnl t) = true) trades.


(** The equity curve: the equity after each trade, compounding from
    [equity]. *)
Fixpoint equity_curve (equity : number) (trades : list Types.Trade) : list number :=
  match trades with
  | [] => []
  | t :: rest =>
      let equity := mul equity (add (num 1) (div (pnl t) (num 100))) in
      equity :: equity_curve equity rest
  end.

(** The percentage decline of each point of a curve from its running peak,
    the peak starting at [peak]. *)
Fixpoint declines (peak : number) (curve : list number) : list number :=
  match curve with
  | [] => []
  | e :: rest =>
      let peak := Math_max peak e in
      mul (div (sub peak e) peak) (num 100) :: declines peak rest
  end.

(** Max Drawdown: the largest peak-to-trough decline of the equity curve. *)
Definition max_drawdown (trades : list Types.Trade) : number :=
  fold_left Math_max (declines (num 100) (equity_curve (num 100) trades)) (num 0).

End Spec.

(** ** Concrete inputs *)

Module Examples.

(** A trade with a [pnl_pct] and an exit time only. *)
Definition trade (pnl : Z) (exit : string) : Types.Trade :=
  Types.mkTrade "t" (Some (num pnl)) None None (Some exit).

(** A collation that orders strings by their characters, as
    [localeCompare] orders ISO dates. *)
Definition by_chars (a b : string) : Z :=
  match String.compare a b with Lt => (-1)%Z | Eq => 0%Z | Gt => 1%Z end.

(** Two trades of +10% each. *)
Definition two_gains : list Types.Trade :=
  [trade 10 "2024-01-01T00:00:00"; trade 10 "2024-01-02T00:00:00"].

(** A gain of 10%, then a loss of 50%. *)
Definition gain_then_loss : list Types.Trade :=
  [trade 10 "2024-01-01T00:00:00"; trade (-50) "2024-01-02T00:00:00"].

(** Two losses of 10% each. *)
Definition two_losses : list Types.Trade :=
  [trade (-10) "2024-01-01T00:00:00"; trade (-10) "2024-01-02T00:00:00"].

(** One trade of each sign and one at zero. *)
Definition mixed : list Types.Trade :=
  [trade 4 "2024-01-01T00:00:00"; trade (-2) "2024-01-02T00:00:00";
   trade 0 "2024-01-03T00:00:00"].



(** No slippage, no fee, the whole capital per position, no protective
    orders. *)
Definition plain_config : ExecutionEngine.ExecutionConfig :=
  ExecutionEngine.mkConfig (qz 0) (qz 0) (qz 10000) (qz 100) None None.

(** A bar at time [ts] that opens, peaks, bottoms and closes at [price]. *)
Definition flat_bar (ts price : Z) : ExecutionEngine.Bar :=
  ExecutionEngine.mkBar ts (qz price) (qz price) (qz price) (qz price) (qz 1).


(** Closes 10, 11, 9, 12, 8 with the flags of "enter above 10, exit
    below 10". *)
Definition five_bars : list (ExecutionEngine.Bar * bool * bool) :=
  [ (flat_bar 1 10, false, false); (flat_bar 2 11, true, false);
    (flat_bar 3 9, false, true); (flat_bar 4 12, true, false);
    (flat_bar 5 8, false, true) ].

End Examples.

(** Further inputs. *)
Module MoreExamples.

(** A trade with a [pnl_pct], an entry time and an exit time. *)
Definition timed (pnl : Z) (entry exit : string) : Types.Trade :=
  Types.mkTrade "t" (Some (num pnl)) None (Some entry) (Some exit).

Definition timed_trades : list Types.Trade :=
  [ timed 4 "2024-01-01T00:00:00" "2024-01-01T00:10:00";
    timed (-2) "2024-01-02T00:00:00" "2024-01-02T00:10:00" ].

(** A clock on which every trade lasts ten minutes. *)
Definition ten_minutes (exit entry : string) : number := num 10.

(** A calendar on which every time stamp is the Monday of week 1 of
    2024. *)
Definition always_monday (ts : string) : string := "Mon".
Definition always_week_1 (ts : string) : string := "1".
Definition always_2024 (ts : string) : string := "2024".

End MoreExamples.

(** * Properties *)

(** Closed goals are decided by evaluation. *)
Ltac by_evaluation :=
  match goal with
  | |- ?P => apply (bool_decide_eq_true_1 P); vm_compute; reflexivity
  end.

(** ** Arithmetic of [JS.number] *)

Lemma add_comm (x y : number) : add x y = add y x.
Proof. destruct x, y; unfold add; try reflexivity. f_equal. ring. Qed.

Lemma add_assoc (x y z : number) : add x (add y z) = add (add x y) z.
Proof. destruct x, y, z; unfold add; try reflexivity. f_equal. ring. Qed.

Lemma add_zero_l (x : number) : add (num 0) x = x.
Proof.
  destruct x; unfold add, num; try reflexivity. f_equal.
  change (qz 0) with 0%Qc. ring.
Qed.

Lemma add_zero_r (x : number) : add x (num 0) = x.
Proof. rewrite add_comm. apply add_zero_l. Qed.

(** ** Total return *)

Lemma reduce_sum_from (acc : number) (trades : list Types.Trade) :
  fold_left (fun sum t => add sum (nullish0 (Types.pnl_pct t))) trades acc
  = add acc (Spec.summed_return trades).
Proof.
  revert acc. induction trades as [|t rest IH]; intros acc; simpl.
  - symmetry. apply add_zero_r.
  - rewrite IH. unfold Spec.pnl. now rewrite add_assoc.
Qed.

(** C1, as amended: for every trade list, the Total Return % of the summary
    cards ([PerformanceDashboard]) and of the quick stats bar
    ([summaryStats]) is the plain sum of the per-trade [pnl_pct] values, a
    missing [pnl_pct] counting as 0. *)
Theorem total_return_is_summed (trades : list Types.Trade) (metrics : Metrics) :
  PerformanceDashboard.totalReturn trades = Spec.summed_return trades
  /\ Page.totalReturn (Page.summaryStats (Page.mkPerformanceData trades metrics))
     = Spec.summed_return trades.
Proof.
  split.
  - unfold PerformanceDashboard.totalReturn. rewrite reduce_sum_from.
    apply add_zero_l.
  - simpl. rewrite reduce_sum_from. apply add_zero_l.
Qed.

(** C1, refuted as stated: two trades of +10% are presented with a Total
    Return of 20%, while the compounded figure is 21%. *)
Lemma total_return_not_compounded :
  PerformanceDashboard.totalReturn Examples.two_gains = num 20
  /\ Page.totalReturn
       (Page.summaryStats (Page.mkPerformanceData Examples.two_gains []))
     = num 20
  /\ Spec.compounded_return Examples.two_gains = num 21
  /\ PerformanceDashboard.totalReturn Examples.two_gains
     <> Spec.compounded_return Examples.two_gains.
Proof. repeat split; by_evaluation. Qed.

(** ** Order of [JS.number] *)

Lemma gtb_fin (a b : Qc) : gtb (Fin a) (Fin b) = bool_decide (b < a).
Proof.
  unfold gtb, ltb. symmetry.
  destruct (b ?= a) eqn:E;
    [ apply bool_decide_eq_false_2 | apply bool_decide_eq_true_2
    | apply bool_decide_eq_false_2 ];
    rewrite Qclt_alt; congruence.
Qed.

Lemma leb_fin (a b : Qc) : leb (Fin a) (Fin b) = bool_decide (a <= b).
Proof.
  unfold leb. symmetry.
  destruct (a ?= b) eqn:E;
    [ apply bool_decide_eq_true_2 | apply bool_decide_eq_true_2
    | apply bool_decide_eq_false_2 ];
    rewrite Qcle_alt; congruence.
Qed.



(** Goals of linear arithmetic over [Qc], decided over [Q]. *)
Ltac qc_linear :=
  unfold Qcdiv, Qcinv, Qcminus, Qcopp, Qcplus, Qcmult, Qcle, Qclt in *;
  cbn [this Q2Qc qz] in *;
  repeat match goal with
    | |- context [Qred (inject_Z ?z)] =>
        let v := eval vm_compute in (Qred (inject_Z z)) in
        change (Qred (inject_Z z)) with v
    | H : context [Qred (inject_Z ?z)] |- _ =>
        let v := eval vm_compute in (Qred (inject_Z z)) in
        change (Qred (inject_Z z)) with v in H
    end;
  repeat match goal with
    | H : context [Qred _] |- _ => rewrite !Qred_correct in H
    end;
  rewrite ?Qred_correct;
  repeat match goal with
    | |- context [Qinv (Qmake ?n ?d)] =>
        let v := eval vm_compute in (Qinv (Qmake n d)) in
        change (Qinv (Qmake n d)) with v
    | H : context [Qinv (Qmake ?n ?d)] |- _ =>
        let v := eval vm_compute in (Qinv (Qmake n d)) in
        change (Qinv (Qmake n d)) with v in H
    end;
  lra.

(** ** The histogram's bins *)






















(** The histogram is mounted with at least one trade. *)
Lemma mounted_with_trades (trades : list Types.Trade) (metrics : Metrics) :
  PerformanceDashboard.mounted trades metrics = true -> trades <> [].
Proof. now destruct trades. Qed.



(** ** Win rate *)

Lemma winners_count (trades : list Types.Trade) :
  Spec.winners trades
  = length (List.filter (fun t => gtb (nullish0 (Types.pnl_pct t)) (num 0)) trades).
Proof.
  induction trades as [|t rest IH]; [reflexivity |].
  cbn [Spec.winners List.filter]. unfold Spec.pnl.
  destruct (gtb (nullish0 (Types.pnl_pct t)) (num 0)); cbn [length]; now rewrite IH.
Qed.





(** ** Zero trades *)



(** ** Risk metric cards *)

(** C6, as amended: every entry the risk metric cards draw is an entry of
    the metrics object whose value is a number other than NaN, and every
    such entry is drawn, Infinity and -Infinity included; the Sharpe ratio
    and Max Drawdown of the quick stats bar are never NaN. *)
Theorem rendered_metrics_are_not_NaN (metrics : Metrics) (key : string) (v : value) :
  (In (key, v) (RiskMetricCards.validMetrics metrics)
   <-> In (key, v) metrics /\ exists n, v = VNumber n /\ isNaN n = false)
  /\ (forall r, In r (RiskMetricCards.rendered_values (RiskMetricCards.RiskMetricCards metrics))
                <-> exists k, In (k, r) (RiskMetricCards.validMetrics metrics))
  /\ (forall trades,
        isNaN (Page.sharpeRatio (Page.summaryStats (Page.mkPerformanceData trades metrics))) = false
        /\ isNaN (Page.maxDrawdown (Page.summaryStats (Page.mkPerformanceData trades metrics))) = false).
Proof.
  split; [| split].
  - unfold RiskMetricCards.validMetrics. rewrite filter_In. cbn [snd].
    split.
    + intros [Hin Hv]. split; [exact Hin |].
      destruct v as [| |n]; try discriminate.
      exists n. split; [reflexivity |]. simpl in Hv. now destruct (isNaN n).
    + intros [Hin (n & -> & Hn)]. split; [exact Hin |]. simpl. now rewrite Hn.
  - intros r. unfold RiskMetricCards.RiskMetricCards.
    destruct (RiskMetricCards.validMetrics metrics) as [|e rest] eqn:E.
    + simpl. split; [tauto | intros [k []]].
    + cbn [length Nat.eqb RiskMetricCards.rendered_values].
      rewrite in_map_iff. split.
      * intros ([k r'] & Hr & Hin). simpl in Hr. subst. now exists k.
      * intros [k Hin]. now exists (k, r).
  - intros trades. cbn [Page.summaryStats Page.sharpeRatio Page.maxDrawdown
                        Page.metrics Page.trades].
    assert (H : forall w, isNaN (value_or0 w) = false).
    { intros [| |n]; try reflexivity. simpl. destruct n; try reflexivity.
      simpl. destruct (q ?= qz 0); reflexivity. }
    split; apply H.
Qed.

(** C6, refuted as stated: a metric whose value is Infinity passes the
    filter and is drawn, and an infinite Sharpe ratio reaches the quick
    stats bar. *)
Lemma infinite_metric_is_rendered :
  RiskMetricCards.rendered_values
    (RiskMetricCards.RiskMetricCards [("sharpe_ratio", VNumber PInf)])
  = [VNumber PInf]
  /\ Page.sharpeRatio
       (Page.summaryStats
          (Page.mkPerformanceData Examples.two_gains [("sharpe_ratio", VNumber PInf)]))
     = PInf
  /\ isFinite PInf = false.
Proof. repeat split; reflexivity. Qed.

(** ** Operators of the logic builder *)

(** C7, the operator select against the claim: the values on offer are the
    seven below, and [!=] is not among them. *)
Theorem not_equal_is_not_offered :
  LogicBuilder.offered
  = [">"; "<"; ">="; "<="; "=="; "cross_above"; "cross_below"]
  /\ ~ In "!=" LogicBuilder.offered.
Proof.
  split; [reflexivity |].
  intros H. repeat (destruct H as [H | H]; [discriminate |]). exact H.
Qed.

(** ** Drawdown *)

Lemma or0_finite (v : option number) :
  isFinite (nullish0 v) = true -> or0 v = nullish0 v.
Proof.
  destruct v as [[a| | |]|]; try discriminate; [| reflexivity].
  intros _. unfold or0, falsy. cbn [nullish0].
  destruct (a ?= qz 0) eqn:E; try reflexivity.
  apply Qceq_alt in E. now subst.
Qed.

Lemma Math_max_positive (p e : Qc) :
  qz 0 < p ->
  exists p', Math_max (Fin p) (Fin e) = Fin p' /\ qz 0 < p'.
Proof.
  intros Hp. unfold Math_max. change (ltb (Fin p) (Fin e)) with (gtb (Fin e) (Fin p)).
  rewrite gtb_fin. case_bool_decide as H.
  - exists e. split; [reflexivity |]. eapply Qclt_trans; eassumption.
  - exists p. now split.
Qed.

(** On trades with finite [pnl_pct] the points of [processDrawdownData]
    are the declines of the compounded equity curve from its running peak,
    rounded to two decimals. *)
Lemma drawdown_data_follows_equity_curve (trades : list Types.Trade) :
  Spec.finite_pnl trades ->
  forall e p : Qc, qz 0 < p ->
    map DrawdownChart.drawdown (Page.processDrawdownData_map (Fin e) (Fin p) trades)
    = map toFixed2 (Spec.declines (Fin p) (Spec.equity_curve (Fin e) trades)).
Proof.
  induction 1 as [|t rest Ht _ IH]; intros e p Hp; [reflexivity |].
  cbn [Page.processDrawdownData_map Spec.equity_curve Spec.declines map
       DrawdownChart.drawdown].
  unfold Spec.pnl in *. rewrite (or0_finite _ Ht).
  destruct (nullish0 (Types.pnl_pct t)) as [a| | |]; try discriminate.
  change (mul (Fin e) (add (num 1) (div (Fin a) (num 100))))
    with (Fin (e * (qz 1 + a / qz 100))).
  destruct (Math_max_positive p (e * (qz 1 + a / qz 100)) Hp) as (p' & -> & Hp').
  unfold num at 1. rewrite gtb_fin, bool_decide_eq_true_2 by exact Hp'.
  f_equal. apply IH. exact Hp'.
Qed.

(** C2, the chart against the claim: after a gain of 10% and a loss of 50%
    the equity curve has declines of 0% and 50%; the drawdown chart of the
    detailed view reports the smaller one, 0, as Max Drawdown, and the chart
    of the overview, fed with the summed series, reports -500. *)
Theorem max_drawdown_reports_smallest_decline :
  Page.processDrawdownData Examples.by_chars Examples.gain_then_loss
  = [ DrawdownChart.mkDrawdownData "2024-01-01" (num 0);
      DrawdownChart.mkDrawdownData "2024-01-02" (num 50) ]
  /\ Page.chart_maxDrawdown Examples.by_chars Examples.gain_then_loss = num 0
  /\ Spec.max_drawdown Examples.gain_then_loss = num 50
  /\ PerformanceDashboard.chart_maxDrawdown Examples.gain_then_loss = num (-500).
Proof. repeat split; by_evaluation. Qed.

(** C3, the overview's series against the claim: after two losses of 10%
    the compounded equity stands 10% and then 19% below its peak, as
    [processDrawdownData] reports; the series of [PerformanceDashboard],
    which adds the [pnl_pct] values up and measures from a peak of 0, reports
    no drawdown at all. *)
Theorem dashboard_drawdown_series_sums_pnl :
  PerformanceDashboard.drawdownSeries Examples.two_losses
  = [ DrawdownChart.mkDrawdownData "T1" (num 0);
      DrawdownChart.mkDrawdownData "T2" (num 0) ]
  /\ Spec.declines (num 100) (Spec.equity_curve (num 100) Examples.two_losses)
     = [num 10; num 19]
  /\ map DrawdownChart.drawdown
       (Page.processDrawdownData Examples.by_chars Examples.two_losses)
     = [num 10; num 19].
Proof. repeat split; by_evaluation. Qed.

(** ** The caller's array *)

Lemma bind_some {A B : Type} (m : Heap.M A) (f : A -> Heap.M B)
  (σ σ' : gmap nat (list Types.Trade)) (a : A) :
  m σ = Some (a, σ') -> (m ≫= f) σ = f a σ'.
Proof. intros H. unfold mbind, Heap.M_bind. now rewrite H. Qed.

Lemma read_run (σ : gmap nat (list Types.Trade)) (l : Heap.loc) (xs : list Types.Trade) :
  σ !! l = Some xs -> Heap.read l σ = Some (xs, σ).
Proof. intros H. unfold Heap.read. now rewrite H. Qed.

Lemma Array_read_with_run {B : Type} (f : list Types.Trade -> B)
  (σ : gmap nat (list Types.Trade)) (l : Heap.loc) (xs : list Types.Trade) :
  σ !! l = Some xs -> Heap.Array_read_with f l σ = Some (f xs, σ).
Proof.
  intros H. unfold Heap.Array_read_with.
  rewrite (bind_some _ _ _ _ _ (read_run σ l xs H)). reflexivity.
Qed.

(** [filter] leaves every array of the store as it is and returns a
    reference that was not in use. *)
Lemma Array_filter_run (p : Types.Trade -> bool)
  (σ : gmap nat (list Types.Trade)) (l : Heap.loc) (xs : list Types.Trade) :
  σ !! l = Some xs ->
  Heap.Array_filter p l σ
  = Some (fresh (dom σ), <[fresh (dom σ) := List.filter p xs]> σ).
Proof.
  intros H. unfold Heap.Array_filter.
  rewrite (bind_some _ _ _ _ _ (read_run σ l xs H)). reflexivity.
Qed.

(** [sort] overwrites the array it is called on. *)
Lemma Array_sort_in_place_run (cmp : Types.Trade -> Types.Trade -> Z)
  (σ : gmap nat (list Types.Trade)) (l : Heap.loc) (xs : list Types.Trade) :
  σ !! l = Some xs ->
  Heap.Array_sort_in_place cmp l σ = Some (l, <[l := Array_sort cmp xs]> σ).
Proof.
  intros H. unfold Heap.Array_sort_in_place.
  rewrite (bind_some _ _ _ _ _ (read_run σ l xs H)).
  unfold mbind, Heap.M_bind, Heap.write. rewrite H. reflexivity.
Qed.

Lemma fresh_is_unused (σ : gmap nat (list Types.Trade)) (l : Heap.loc)
  (xs : list Types.Trade) :
  σ !! l = Some xs -> fresh (dom σ) <> l.
Proof.
  intros H Heq. subst l. apply (is_fresh (dom σ)).
  apply elem_of_dom. now exists xs.
Qed.

Lemma processDrawdownData_run (localeCompare : string -> string -> Z)
  (σ : gmap nat (list Types.Trade)) (l : Heap.loc) (trades : list Types.Trade) :
  σ !! l = Some trades ->
  Heap.processDrawdownData localeCompare l σ
  = Some (Page.processDrawdownData localeCompare trades,
          <[fresh (dom σ) :=
              Array_sort (Page.by_exit_time localeCompare)
                         (List.filter Page.has_exit_time trades)]> σ).
Proof.
  intros H. unfold Heap.processDrawdownData.
  rewrite (bind_some _ _ _ _ _ (Array_filter_run _ σ l trades H)).
  rewrite (bind_some _ _ _ _ _
             (Array_sort_in_place_run _ _ _ _ (lookup_insert_eq σ _ _))).
  rewrite insert_insert_eq.
  exact (Array_read_with_run _ _ _ _ (lookup_insert_eq σ _ _)).
Qed.

(** C10: called on a reference to an array [trades], [processDrawdownData]
    returns what it computes from the elements alone and leaves every array
    of the store, the caller's included, as it was (the sort runs on the new
    array made by [filter]), so a second call returns the same points;
    [processHeatmapData] and [createHistogramData] return what they compute
    from the elements and leave the store as it was. *)
Theorem dashboard_functions_keep_the_trades
  (dayjs_ddd dayjs_isoWeek dayjs_year : string -> string)
  (localeCompare : string -> string -> Z)
  (σ : gmap nat (list Types.Trade)) (l : Heap.loc) (trades : list Types.Trade) :
  σ !! l = Some trades ->
  (exists σ' σ'',
      Heap.processDrawdownData localeCompare l σ
      = Some (Page.processDrawdownData localeCompare trades, σ')
      /\ (forall l' xs, σ !! l' = Some xs -> σ' !! l' = Some xs)
      /\ Heap.processDrawdownData localeCompare l σ'
         = Some (Page.processDrawdownData localeCompare trades, σ''))
  /\ Heap.processHeatmapData dayjs_ddd dayjs_isoWeek dayjs_year l σ
     = Some (Page.processHeatmapData dayjs_ddd dayjs_isoWeek dayjs_year trades, σ)
  /\ Heap.createHistogramData l σ
     = Some (PnLHistogram.createHistogramData trades, σ).
Proof.
  intros H. split; [| split].
  - assert (Hkept : forall l' xs, σ !! l' = Some xs ->
              <[fresh (dom σ) :=
                  Array_sort (Page.by_exit_time localeCompare)
                             (List.filter Page.has_exit_time trades)]> σ !! l'
              = Some xs).
    { intros l' xs Hl'. rewrite lookup_insert_ne; [exact Hl' |].
      exact (fresh_is_unused σ l' xs Hl'). }
    eexists. eexists. split; [exact (processDrawdownData_run _ σ l trades H) |].
    split; [exact Hkept |].
    exact (processDrawdownData_run _ _ l trades (Hkept l trades H)).
  - unfold Heap.processHeatmapData.
    rewrite (bind_some _ _ _ _ _ (Array_read_with_run _ σ l trades H)).
    reflexivity.
  - apply Array_read_with_run, H.
Qed.

Lemma dashboard_functions_keep_the_trades_witness :
  ({[ 0%nat := Examples.gain_then_loss ]} : gmap nat (list Types.Trade)) !! 0%nat
  = Some Examples.gain_then_loss
  /\ Heap.createHistogramData 0%nat {[ 0%nat := Examples.gain_then_loss ]}
     = Some (PnLHistogram.createHistogramData Examples.gain_then_loss,
             {[ 0%nat := Examples.gain_then_loss ]}).
Proof.
  assert (H : ({[ 0%nat := Examples.gain_then_loss ]} : gmap nat (list Types.Trade))
              !! 0%nat = Some Examples.gain_then_loss) by reflexivity.
  split; [exact H |].
  exact (proj2 (proj2 (dashboard_functions_keep_the_trades
                         (fun s => s) (fun s => s) (fun s => s)
                         Examples.by_chars _ 0%nat _ H))).
Defined.

(** Sorting the argument itself would show: the caller's array comes back
    reordered. *)
Lemma sort_on_the_argument_reorders_it :
  exists out σ',
    Heap.sort_then_map Examples.by_chars 0%nat
      {[ 0%nat := rev Examples.gain_then_loss ]} = Some (out, σ')
    /\ σ' !! 0%nat = Some Examples.gain_then_loss
    /\ rev Examples.gain_then_loss <> Examples.gain_then_loss.
Proof.
  eexists. eexists. unfold Heap.sort_then_map.
  rewrite (bind_some _ _ _ _ _
             (Array_sort_in_place_run _ _ 0%nat (rev Examples.gain_then_loss)
                                      (lookup_singleton_eq _ _))).
  split; [apply Array_read_with_run, lookup_insert_eq |].
  split; [rewrite lookup_insert_eq; f_equal | discriminate].
Qed.

(** ** The execution engine's positions *)

Section Engine.

Import ExecutionEngine.

Variable cfg : ExecutionConfig.












End Engine.




(** The five-bar scenario (closes 10, 11, 9, 12, 8, entry above 10, exit
    below 10, no costs) under either policy: the position entered on the
    second bar at 11 is closed on the third at 9, a [pnl_pct] of -200/11,
    about -18.18; the entry flag of the fourth bar (12) then opens a second
    position, which the exit flag of the fifth (8) closes. *)
Lemma five_bar_scenario (policy : ExecutionEngine.EndOfSeriesPolicy) :
  map (fun t => (ExecutionEngine.entry_ts t, ExecutionEngine.exit_ts t,
                 ExecutionEngine.pnl_pct t, ExecutionEngine.reason t))
      (ExecutionEngine.backtest policy Examples.plain_config Examples.five_bars)
  = [ (2%Z, 3%Z, qz (-200) / qz 11, ExecutionEngine.RuleExit);
      (4%Z, 5%Z, qz (-100) / qz 3, ExecutionEngine.RuleExit) ].
Proof. destruct policy; by_evaluation. Qed.

(** * Further properties of the front end *)

(** ** More arithmetic of [JS.number] *)

Lemma ltb_fin (a b : Qc) : ltb (Fin a) (Fin b) = bool_decide (a < b).
Proof. exact (gtb_fin b a). Qed.

Lemma Math_max_fin (a b : Qc) :
  exists m, Math_max (Fin a) (Fin b) = Fin m /\ a <= m /\ b <= m
            /\ (m = a \/ m = b).
Proof.
  unfold Math_max. rewrite ltb_fin. case_bool_decide as H.
  - exists b. repeat split; [now apply Qclt_le_weak | apply Qcle_refl | now right].
  - exists a. repeat split; [apply Qcle_refl | now apply Qcnot_lt_le | now left].
Qed.

Lemma Math_min_fin (a b : Qc) :
  exists m, Math_min (Fin a) (Fin b) = Fin m /\ m <= a /\ m <= b
            /\ (m = a \/ m = b).
Proof.
  unfold Math_min. rewrite ltb_fin. case_bool_decide as H.
  - exists b. repeat split; [now apply Qclt_le_weak | apply Qcle_refl | now right].
  - exists a. repeat split; [apply Qcle_refl | now apply Qcnot_lt_le | now left].
Qed.

(** A quotient of a non-positive by a positive number, times a hundred. *)
Lemma decline_nonpositive (c m : Qc) :
  qz 0 < m -> c <= m -> (c - m) / m * qz 100 <= qz 0.
Proof.
  intros Hm Hc. change (qz 0) with 0%Qc in *.
  apply (Qcmult_lt_0_le_reg_r _ _ (m / qz 100)).
  - apply Qcmult_pos_pos; [exact Hm | apply Qcinv_pos; reflexivity].
  - replace ((c - m) / m * qz 100 * (m / qz 100)) with (c - m).
    + rewrite Qcmult_0_l. apply Qcle_minus_iff in Hc.
      apply Qcopp_le_compat in Hc.
      replace (- (m + - c)) with (c - m) in Hc by ring. exact Hc.
    + field. split; [discriminate |].
      intros ->. exact (Qclt_not_eq _ _ Hm eq_refl).
Qed.

(** ** The overview's drawdown series *)

Lemma drawdown_point_bounds (c peak : number) :
  let peak' := Math_max peak c in
  let drawdown :=
    if gtb peak' (num 0) then mul (div (sub c peak') peak') (num 100)
    else num 0 in
  let shown := if isFinite drawdown then drawdown else num 0 in
  isFinite shown = true /\ leb shown (num 0) = true.
Proof.
  cbv zeta.
  assert (Hfin : forall p c' : Qc,
             p <= c' -> 
             let drawdown :=
               if gtb (Fin c') (num 0)
               then mul (div (sub (Fin p) (Fin c')) (Fin c')) (num 100)
               else num 0 in
             isFinite (if isFinite drawdown then drawdown else num 0) = true
             /\ leb (if isFinite drawdown then drawdown else num 0) (num 0) = true).
  { intros p m Hp. cbv zeta.
    destruct (gtb (Fin m) (num 0)) eqn:Hm; [| split; reflexivity].
    unfold num in Hm. rewrite gtb_fin in Hm. apply bool_decide_eq_true_1 in Hm.
    assert (Hne : (m ?= qz 0) = Gt) by (now apply Qcgt_alt).
    unfold sub, neg, add, div. rewrite Hne. unfold mul, num.
    cbn [isFinite]. split; [reflexivity |].
    rewrite leb_fin. apply bool_decide_eq_true_2.
    replace (p + - m) with (p - m) by ring.
    now apply decline_nonpositive. }
  destruct c as [c| | |], peak as [p| | |]; try (split; reflexivity).
  - destruct (Math_max_fin p c) as (m & -> & Hp & Hc & _). now apply Hfin.
  - change (Math_max NInf (Fin c)) with (Fin c). apply Hfin, Qcle_refl.
  - change (Math_max (Fin p) NInf) with (Fin p).
    destruct (gtb (Fin p) (num 0)); [| split; reflexivity].
    unfold sub, neg, add, div. destruct (p ?= qz 0); split; reflexivity.
Qed.

Lemma dashboard_series_map_bounds (trades : list Types.Trade) :
  forall (cumulativePnl peak : number) (idx : nat),
    length (PerformanceDashboard.drawdownSeries_map cumulativePnl peak idx trades)
    = length trades
    /\ Forall (fun d => isFinite (DrawdownChart.drawdown d) = true
                        /\ leb (DrawdownChart.drawdown d) (num 0) = true)
              (PerformanceDashboard.drawdownSeries_map cumulativePnl peak idx trades).
Proof.
  induction trades as [|t rest IH]; intros cumulativePnl peak idx;
    [split; [reflexivity | constructor] |].
  cbn [PerformanceDashboard.drawdownSeries_map length].
  destruct (IH (add cumulativePnl (nullish0 (Types.pnl_pct t)))
               (Math_max peak (add cumulativePnl (nullish0 (Types.pnl_pct t))))
               (S idx)) as [Hlen Hall].
  split; [now rewrite Hlen |].
  constructor; [| exact Hall].
  cbn [DrawdownChart.drawdown].
  exact (drawdown_point_bounds (add cumulativePnl (nullish0 (Types.pnl_pct t))) peak).
Qed.

(** X1: whatever the trades ([NaN] and infinite [pnl_pct] included), the
    drawdown series of [PerformanceDashboard] has one point per trade and
    every drawdown in it is a finite number that is at most 0. *)
Theorem dashboard_series_finite_nonpositive (trades : list Types.Trade) :
  length (PerformanceDashboard.drawdownSeries trades) = length trades
  /\ Forall (fun d => isFinite (DrawdownChart.drawdown d) = true
                      /\ leb (DrawdownChart.drawdown d) (num 0) = true)
            (PerformanceDashboard.drawdownSeries trades).
Proof. apply dashboard_series_map_bounds. Qed.

(** ** The detailed view's drawdown data *)

Lemma insert_sorted_perm {A : Type} (cmp : A -> A -> Z) (x : A) (l : list A) :
  Permutation (insert_sorted cmp x l) (x :: l).
Proof.
  induction l as [|y l IH]; cbn [insert_sorted]; [reflexivity |].
  destruct (0 <? cmp x y)%Z; [| reflexivity].
  rewrite IH. apply perm_swap.
Qed.

(** The sort keeps the elements. *)
Lemma Array_sort_perm {A : Type} (cmp : A -> A -> Z) (l : list A) :
  Permutation (Array_sort cmp l) l.
Proof.
  induction l as [|x l IH]; [reflexivity |].
  unfold Array_sort in *. cbn [foldr]. rewrite insert_sorted_perm. now constructor.
Qed.

Lemma growth_ratio_bounds (e m : Qc) :
  qz 0 < m -> e <= m ->
  qz 0 <= (m - e) / m * qz 100
  /\ (qz 0 <= e -> (m - e) / m * qz 100 <= qz 100).
Proof.
  intros Hm He. change (qz 0) with 0%Qc in *.
  assert (Hpos : 0 < m / qz 100)
    by (apply Qcmult_pos_pos; [exact Hm | apply Qcinv_pos; reflexivity]).
  assert (Hne : m <> 0) by (intros ->; exact (Qclt_not_eq _ _ Hm eq_refl)).
  assert (Heq : (m - e) / m * qz 100 * (m / qz 100) = m - e)
    by (field; split; [discriminate | exact Hne]).
  split.
  - apply (Qcmult_lt_0_le_reg_r _ _ (m / qz 100) Hpos).
    rewrite Heq, Qcmult_0_l. now apply Qcle_minus_iff in He.
  - intros He0. apply (Qcmult_lt_0_le_reg_r _ _ (m / qz 100) Hpos).
    rewrite Heq. replace (qz 100 * (m / qz 100)) with m by (field; discriminate).
    apply Qcle_minus_iff. replace (m + - (m - e)) with e by ring. exact He0.
Qed.

Lemma qz_le (a b : Z) : (a <= b)%Z -> qz a <= qz b.
Proof.
  intros H. unfold Qcle, qz. cbn [this Q2Qc]. rewrite !Qred_correct.
  unfold Qle. cbn. lia.
Qed.

Lemma Qfloor_Qc_le (a b : Qc) : a <= b -> (Qfloor (this a) <= Qfloor (this b))%Z.
Proof. intros H. apply Qfloor_resp_le. exact H. Qed.

(** Rounding to two decimals keeps a number between 0 and 100 there. *)
Lemma toFixed2_bounds (x : Qc) :
  qz 0 <= x ->
  exists y, toFixed2 (Fin x) = Fin y /\ qz 0 <= y
            /\ (x <= qz 100 -> y <= qz 100).
Proof.
  intros Hx. unfold toFixed2.
  assert (Hneg : ltb (Fin x) (num 0) = false).
  { unfold num. rewrite ltb_fin. apply bool_decide_eq_false_2.
    now apply Qcle_not_lt. }
  rewrite Hneg.
  destruct (leb (num (10 ^ 21)) (Fin x)) eqn:Hbig.
  - exists x. split; [reflexivity | split; [exact Hx |]]. intros Hle.
    unfold num in Hbig. rewrite leb_fin in Hbig.
    apply bool_decide_eq_true_1 in Hbig.
    exfalso. apply (Qcle_not_lt _ _ (Qcle_trans _ _ _ Hbig Hle)). reflexivity.
  - exists (round2_abs x). split; [reflexivity |].
    assert (Hdiv : forall z : Z, qz z / qz 100 * qz 100 = qz z)
      by (intros z; field; discriminate).
    unfold round2_abs. split.
    + apply (Qcmult_lt_0_le_reg_r _ _ (qz 100)); [reflexivity |].
      rewrite Hdiv. change (qz 0 * qz 100) with (qz 0).
      apply qz_le. change 0%Z with (Qfloor (this (qz 0))).
      apply Qfloor_Qc_le.
      change (qz 0) with 0%Qc in *.
      apply Qcplus_nonneg_nonneg; [| discriminate].
      apply Qcmult_nonneg_nonneg; [exact Hx | discriminate].
    + intros Hle.
      apply (Qcmult_lt_0_le_reg_r _ _ (qz 100)); [reflexivity |].
      rewrite Hdiv. change (qz 100 * qz 100) with (qz 10000).
      apply qz_le.
      change 10000%Z with (Qfloor (this (qz 100 * qz 100 + qz 1 / qz 2))).
      apply Qfloor_Qc_le. apply Qcplus_le_mono_r.
      apply Qcmult_le_mono_nonneg_r; [discriminate | exact Hle].
Qed.

Lemma Forall_filter_keep {A : Type} (P : A -> Prop) (f : A -> bool) (l : list A) :
  Forall P l -> Forall P (List.filter f l).
Proof.
  induction 1 as [|x l Hx _ IH]; cbn [List.filter]; [constructor |].
  destruct (f x); [now constructor | exact IH].
Qed.

Lemma ltb_irrefl (x : number) : ltb x x = false.
Proof.
  destruct x as [a| | |]; try reflexivity.
  rewrite ltb_fin. apply bool_decide_eq_false_2.
  intros H. exact (Qclt_not_eq _ _ H eq_refl).
Qed.

(** The greater of two numbers is not below the second. *)
Lemma Math_max_not_below (x y : number) : ltb (Math_max x y) y = false.
Proof.
  unfold Math_max.
  destruct x as [a| | |], y as [b| | |]; try reflexivity;
    match goal with
    | |- context [if ltb ?u ?v then _ else _] => destruct (ltb u v) eqn:E
    end;
    try apply ltb_irrefl; try exact E; reflexivity.
Qed.

(** The decline of an equity [e] from a peak [m] that it does not exceed,
    as [processDrawdownData] prints it, is not negative. *)
Lemma decline_not_negative (m e : number) :
  gtb m (num 0) = true -> ltb m e = false ->
  ltb (toFixed2 (mul (div (sub m e) m) (num 100))) (num 0) = false.
Proof.
  destruct m as [a| | |]; try discriminate; intros Hm Hme.
  - unfold num in Hm. rewrite gtb_fin in Hm. apply bool_decide_eq_true_1 in Hm.
    assert (Hgt : (a ?= qz 0) = Gt) by (now apply Qcgt_alt).
    destruct e as [b| | |]; try discriminate.
    + rewrite ltb_fin in Hme. apply bool_decide_eq_false_1 in Hme.
      apply Qcnot_lt_le in Hme.
      unfold sub, neg, add, div. rewrite Hgt. unfold mul, num.
      destruct (growth_ratio_bounds b a Hm Hme) as [Hlow _].
      change (a + - b) with (a - b).
      destruct (toFixed2_bounds _ Hlow) as (y & -> & Hy & _).
      rewrite ltb_fin. apply bool_decide_eq_false_2. now apply Qcle_not_lt.
    + unfold sub, neg, add, div. now rewrite Hgt.
    + reflexivity.
  - now destruct e.
Qed.

(** When the equity is not negative either, the decline is not above
    100. *)
Lemma decline_at_most_100 (m e : number) :
  gtb m (num 0) = true -> ltb m e = false -> ltb e (num 0) = false ->
  gtb (toFixed2 (mul (div (sub m e) m) (num 100))) (num 100) = false.
Proof.
  destruct m as [a| | |]; try discriminate; intros Hm Hme He.
  - unfold num in Hm. rewrite gtb_fin in Hm. apply bool_decide_eq_true_1 in Hm.
    assert (Hgt : (a ?= qz 0) = Gt) by (now apply Qcgt_alt).
    destruct e as [b| | |]; try discriminate.
    + rewrite ltb_fin in Hme. apply bool_decide_eq_false_1 in Hme.
      apply Qcnot_lt_le in Hme.
      unfold num in He. rewrite ltb_fin in He. apply bool_decide_eq_false_1 in He.
      apply Qcnot_lt_le in He.
      unfold sub, neg, add, div. rewrite Hgt. unfold mul, num.
      destruct (growth_ratio_bounds b a Hm Hme) as [Hlow Hhigh].
      change (a + - b) with (a - b).
      destruct (toFixed2_bounds _ Hlow) as (y & -> & _ & Hy).
      rewrite gtb_fin. apply bool_decide_eq_false_2. apply Qcle_not_lt.
      apply Hy, Hhigh, He.
    + reflexivity.
  - now destruct e.
Qed.

(** The growth factor of a trade that loses no more than 100% is not
    negative. *)
Lemma factor_not_negative (v : number) :
  leb (num (-100)) v = true ->
  ltb (add (num 1) (div v (num 100))) (num 0) = false.
Proof.
  destruct v as [a| | |]; try discriminate; intros Hv; [| reflexivity].
  unfold num in Hv. rewrite leb_fin in Hv. apply bool_decide_eq_true_1 in Hv.
  change (add (num 1) (div (Fin a) (num 100))) with (Fin (qz 1 + a / qz 100)).
  unfold num. rewrite ltb_fin. apply bool_decide_eq_false_2. qc_linear.
Qed.

Lemma mul_not_negative (x y : number) :
  ltb x (num 0) = false -> ltb y (num 0) = false ->
  ltb (mul x y) (num 0) = false.
Proof.
  assert (Hsign : forall a : Qc, ltb (Fin a) (num 0) = false -> (a ?= qz 0) <> Lt).
  { intros a Ha. unfold num in Ha. rewrite ltb_fin in Ha.
    apply bool_decide_eq_false_1 in Ha. now rewrite <- Qclt_alt. }
  destruct x as [a| | |], y as [b| | |]; try discriminate; try reflexivity;
    intros Hx Hy.
  - unfold num in *. rewrite ltb_fin in *.
    apply bool_decide_eq_false_1, Qcnot_lt_le in Hx.
    apply bool_decide_eq_false_1, Qcnot_lt_le in Hy.
    unfold mul. rewrite ltb_fin. apply bool_decide_eq_false_2, Qcle_not_lt.
    change (qz 0) with 0%Qc in *. now apply Qcmult_nonneg_nonneg.
  - unfold mul. specialize (Hsign a Hx). now destruct (a ?= qz 0).
  - unfold mul. specialize (Hsign b Hy). now destruct (b ?= qz 0).
Qed.

Lemma drawdown_map_not_negative (trades : list Types.Trade) :
  forall equity peak : number,
    Forall (fun d => ltb (DrawdownChart.drawdown d) (num 0) = false)
           (Page.processDrawdownData_map equity peak trades).
Proof.
  induction trades as [|t rest IH]; intros equity peak; [constructor |].
  cbn [Page.processDrawdownData_map]. constructor; [| apply IH].
  cbn [DrawdownChart.drawdown].
  destruct (gtb (Math_max peak _) (num 0)) eqn:Hpeak; [| reflexivity].
  apply decline_not_negative; [exact Hpeak | apply Math_max_not_below].
Qed.

Lemma drawdown_map_not_above_100 (trades : list Types.Trade) :
  Forall (fun t => leb (num (-100)) (or0 (Types.pnl_pct t)) = true) trades ->
  forall equity peak : number,
    ltb equity (num 0) = false ->
    Forall (fun d => gtb (DrawdownChart.drawdown d) (num 100) = false)
           (Page.processDrawdownData_map equity peak trades).
Proof.
  induction 1 as [|t rest Ht _ IH]; intros equity peak Hequity; [constructor |].
  cbn [Page.processDrawdownData_map].
  assert (Hnext : ltb (mul equity (add (num 1) (div (or0 (Types.pnl_pct t)) (num 100))))
                      (num 0) = false)
    by (apply mul_not_negative; [exact Hequity | now apply factor_not_negative]).
  constructor; [| now apply IH].
  cbn [DrawdownChart.drawdown].
  destruct (gtb (Math_max peak _) (num 0)) eqn:Hpeak; [| reflexivity].
  apply decline_at_most_100;
    [exact Hpeak | apply Math_max_not_below | exact Hnext].
Qed.

(** X2: whatever the trades ([NaN] and infinite [pnl_pct] included),
    [processDrawdownData] returns one point per trade that has an exit time
    and no drawdown in it is negative; when no trade loses more than 100%
    (a missing, zero or [NaN] [pnl_pct] counting as 0), no drawdown is
    above 100. *)
Theorem drawdown_data_bounds (localeCompare : string -> string -> Z)
  (trades : list Types.Trade) :
  length (Page.processDrawdownData localeCompare trades)
  = length (List.filter Page.has_exit_time trades)
  /\ Forall (fun d => ltb (DrawdownChart.drawdown d) (num 0) = false)
            (Page.processDrawdownData localeCompare trades)
  /\ (Forall (fun t => leb (num (-100)) (or0 (Types.pnl_pct t)) = true) trades ->
      Forall (fun d => gtb (DrawdownChart.drawdown d) (num 100) = false)
             (Page.processDrawdownData localeCompare trades)).
Proof.
  unfold Page.processDrawdownData.
  set (sorted := Array_sort (Page.by_exit_time localeCompare)
                            (List.filter Page.has_exit_time trades)).
  assert (Hperm : Permutation sorted (List.filter Page.has_exit_time trades))
    by apply Array_sort_perm.
  split; [| split].
  - rewrite <- (Permutation_length Hperm). clear.
    generalize (num 100) at 1 as e. generalize (num 100) as p.
    induction sorted as [|t rest IH]; intros p e; [reflexivity |].
    cbn [Page.processDrawdownData_map length]. now rewrite IH.
  - apply drawdown_map_not_negative.
  - intros Hloss. apply drawdown_map_not_above_100; [| reflexivity].
    rewrite Hperm. now apply Forall_filter_keep.
Qed.

(** ** The order of the trades does not matter *)

Section SortedUnique.

Context {A : Type} (cmp : A -> A -> Z).

(** [cmp] orders its arguments: any two compare one way or the other, and
    the order is transitive. *)
Hypothesis cmp_total : forall a b, (cmp a b <= 0)%Z \/ (cmp b a <= 0)%Z.
Hypothesis cmp_trans :
  forall a b c, (cmp a b <= 0)%Z -> (cmp b c <= 0)%Z -> (cmp a c <= 0)%Z.

Lemma insert_sorted_sorted (x : A) (l : list A) :
  StronglySorted (fun a b => (cmp a b <= 0)%Z) l ->
  StronglySorted (fun a b => (cmp a b <= 0)%Z) (insert_sorted cmp x l).
Proof.
  induction 1 as [|y l Hl IH Hy]; cbn [insert_sorted]; [repeat constructor |].
  destruct (Z.ltb_spec 0 (cmp x y)) as [Hgt | Hle].
  - constructor; [exact IH |].
    rewrite (insert_sorted_perm cmp x l). constructor; [| exact Hy].
    destruct (cmp_total x y); [lia | assumption].
  - constructor; [now constructor |].
    constructor; [exact Hle |].
    eapply Forall_impl; [exact Hy |]. intros z Hz. cbv beta in *.
    now apply (cmp_trans x y z).
Qed.

Lemma Array_sort_sorted (l : list A) :
  StronglySorted (fun a b => (cmp a b <= 0)%Z) (Array_sort cmp l).
Proof.
  induction l as [|x l IH]; [constructor |].
  unfold Array_sort in *. cbn [foldr]. now apply insert_sorted_sorted.
Qed.

(** Two sorted arrangements of elements no two of which compare equal are
    the same list. *)
Lemma sorted_arrangement_unique (l1 : list A) :
  forall l2,
    StronglySorted (fun a b => (cmp a b <= 0)%Z) l1 ->
    StronglySorted (fun a b => (cmp a b <= 0)%Z) l2 ->
    Permutation l1 l2 ->
    (forall a b, In a l1 -> In b l1 ->
                 (cmp a b <= 0)%Z -> (cmp b a <= 0)%Z -> a = b) ->
    l1 = l2.
Proof.
  induction l1 as [|x l1 IH]; intros l2 Hs1 Hs2 Hperm Hanti.
  - now apply Permutation_nil in Hperm.
  - destruct l2 as [|y l2];
      [symmetry in Hperm; now apply Permutation_nil in Hperm |].
    inversion Hs1 as [|? ? Hs1' Hx]; subst.
    inversion Hs2 as [|? ? Hs2' Hy]; subst.
    assert (Hrefl : forall a, (cmp a a <= 0)%Z)
      by (intros a; destruct (cmp_total a a); assumption).
    assert (Hxy : (cmp x y <= 0)%Z).
    { assert (Hin : In y (x :: l1))
        by (apply (Permutation_in _ (Permutation_sym Hperm)); now left).
      destruct Hin as [<- | Hin]; [apply Hrefl |].
      rewrite Forall_forall in Hx. apply Hx. now apply list_elem_of_In. }
    assert (Hyx : (cmp y x <= 0)%Z).
    { assert (Hin : In x (y :: l2))
        by (apply (Permutation_in _ Hperm); now left).
      destruct Hin as [<- | Hin]; [apply Hrefl |].
      rewrite Forall_forall in Hy. apply Hy. now apply list_elem_of_In. }
    assert (Heq : x = y).
    { apply Hanti; [now left | | exact Hxy | exact Hyx].
      apply (Permutation_in _ (Permutation_sym Hperm)). now left. }
    subst y. f_equal. apply IH; [exact Hs1' | exact Hs2' | |].
    + now apply Permutation_cons_inv in Hperm.
    + intros a b Ha Hb. apply Hanti; now right.
Qed.

End SortedUnique.

Lemma filter_perm {A : Type} (f : A -> bool) (l l' : list A) :
  Permutation l l' -> Permutation (List.filter f l) (List.filter f l').
Proof.
  induction 1 as [|x l l' _ IH|x y l|l l' l'' _ IH1 _ IH2]; cbn [List.filter].
  - constructor.
  - destruct (f x); [now constructor | exact IH].
  - destruct (f x), (f y); try reflexivity. apply perm_swap.
  - now transitivity (List.filter f l').
Qed.

(** X3: when [localeCompare] orders the strings (total and transitive) and
    no two trades have exit times that compare equal, [processDrawdownData]
    returns the same points for any two arrangements of the same trades. *)
Theorem drawdown_data_ignores_arrival_order
  (localeCompare : string -> string -> Z) (trades trades' : list Types.Trade) :
  (forall a b, (localeCompare a b <= 0)%Z \/ (localeCompare b a <= 0)%Z) ->
  (forall a b c, (localeCompare a b <= 0)%Z -> (localeCompare b c <= 0)%Z ->
                 (localeCompare a c <= 0)%Z) ->
  (forall t1 t2, In t1 trades -> In t2 trades ->
                 (Page.by_exit_time localeCompare t1 t2 <= 0)%Z ->
                 (Page.by_exit_time localeCompare t2 t1 <= 0)%Z -> t1 = t2) ->
  Permutation trades trades' ->
  Page.processDrawdownData localeCompare trades
  = Page.processDrawdownData localeCompare trades'.
Proof.
  intros Htotal Htrans Hdistinct Hperm. unfold Page.processDrawdownData.
  f_equal.
  assert (Htotal' : forall a b, (Page.by_exit_time localeCompare a b <= 0)%Z
                                \/ (Page.by_exit_time localeCompare b a <= 0)%Z)
    by (intros a b; apply Htotal).
  assert (Htrans' : forall a b c,
             (Page.by_exit_time localeCompare a b <= 0)%Z ->
             (Page.by_exit_time localeCompare b c <= 0)%Z ->
             (Page.by_exit_time localeCompare a c <= 0)%Z)
    by (intros a b c; apply Htrans).
  apply (sorted_arrangement_unique (Page.by_exit_time localeCompare) Htotal').
  - now apply Array_sort_sorted.
  - now apply Array_sort_sorted.
  - rewrite !Array_sort_perm. now apply filter_perm.
  - intros a b Ha Hb. apply Hdistinct.
    + apply (Permutation_in _ (Array_sort_perm _ _)) in Ha.
      apply filter_In in Ha. tauto.
    + apply (Permutation_in _ (Array_sort_perm _ _)) in Hb.
      apply filter_In in Hb. tauto.
Qed.

(** The order of strings by their characters is total and transitive. *)
Lemma ascii_compare_trans (a b c : Ascii.ascii) :
  match Ascii.compare a b, Ascii.compare b c with
  | Eq, r | r, Eq => Ascii.compare a c = r
  | Lt, Lt => Ascii.compare a c = Lt
  | Gt, Gt => Ascii.compare a c = Gt
  | _, _ => True
  end.
Proof.
  unfold Ascii.compare.
  destruct (N.compare_spec (N_of_ascii a) (N_of_ascii b)) as [E1|L1|G1],
           (N.compare_spec (N_of_ascii b) (N_of_ascii c)) as [E2|L2|G2];
    try exact I;
    first [ apply N.compare_eq_iff | apply N.compare_lt_iff | apply N.compare_gt_iff ];
    lia.
Qed.

Lemma string_compare_trans (s1 : string) :
  forall s2 s3,
    String.compare s1 s2 <> Gt -> String.compare s2 s3 <> Gt ->
    String.compare s1 s3 <> Gt.
Proof.
  induction s1 as [|a s1 IH]; intros [|b s2] [|c s3]; cbn [String.compare];
    try congruence.
  pose proof (ascii_compare_trans a b c) as H.
  destruct (Ascii.compare a b) eqn:E1, (Ascii.compare b c) eqn:E2;
    try congruence; rewrite ?H; try congruence.
  apply IH.
Qed.

Lemma by_chars_total (a b : string) :
  (Examples.by_chars a b <= 0)%Z \/ (Examples.by_chars b a <= 0)%Z.
Proof.
  unfold Examples.by_chars. rewrite (String.compare_antisym b a).
  destruct (String.compare a b); cbn [CompOpp]; lia.
Qed.

Lemma by_chars_trans (a b c : string) :
  (Examples.by_chars a b <= 0)%Z -> (Examples.by_chars b c <= 0)%Z ->
  (Examples.by_chars a c <= 0)%Z.
Proof.
  unfold Examples.by_chars. intros H1 H2.
  assert (H : String.compare a c <> Gt).
  { apply (string_compare_trans a b c).
    - destruct (String.compare a b); [discriminate | discriminate | lia].
    - destruct (String.compare b c); [discriminate | discriminate | lia]. }
  destruct (String.compare a c); [lia | lia | congruence].
Qed.

Lemma drawdown_data_ignores_arrival_order_witness :
  Permutation Examples.gain_then_loss (rev Examples.gain_then_loss)
  /\ Page.processDrawdownData Examples.by_chars Examples.gain_then_loss
     = Page.processDrawdownData Examples.by_chars (rev Examples.gain_then_loss).
Proof.
  assert (Hperm : Permutation Examples.gain_then_loss (rev Examples.gain_then_loss))
    by apply Permutation_rev.
  split; [exact Hperm |].
  apply (drawdown_data_ignores_arrival_order Examples.by_chars _ _
           by_chars_total by_chars_trans); [| exact Hperm].
  intros t1 t2 [<- | [<- | []]] [<- | [<- | []]]; try reflexivity;
    vm_compute; intros H1 H2; exfalso; (now apply H1 || now apply H2).
Defined.

(** ** Smallest and largest of a list *)

Lemma leb_refl (x : number) : isNaN x = false -> leb x x = true.
Proof.
  destruct x as [a| | |]; try reflexivity; [| discriminate].
  intros _. rewrite leb_fin. apply bool_decide_eq_true_2, Qcle_refl.
Qed.

Lemma leb_trans (x y z : number) :
  leb x y = true -> leb y z = true -> leb x z = true.
Proof.
  destruct x as [a| | |], y as [b| | |], z as [c| | |];
    try reflexivity; try discriminate.
  rewrite !leb_fin. intros H1 H2.
  apply bool_decide_eq_true_1 in H1. apply bool_decide_eq_true_1 in H2.
  apply bool_decide_eq_true_2. eapply Qcle_trans; eassumption.
Qed.

Lemma leb_not_NaN (x y : number) :
  leb x y = true -> isNaN x = false /\ isNaN y = false.
Proof. destruct x, y; try discriminate; now split. Qed.

Lemma ltb_false_leb (x y : number) :
  isNaN x = false -> isNaN y = false -> ltb x y = false -> leb y x = true.
Proof.
  destruct x as [a| | |], y as [b| | |]; try reflexivity; try discriminate.
  intros _ _. rewrite ltb_fin, leb_fin. intros H.
  apply bool_decide_eq_false_1 in H. apply bool_decide_eq_true_2.
  now apply Qcnot_lt_le.
Qed.

Lemma ltb_leb (x y : number) : ltb x y = true -> leb x y = true.
Proof.
  destruct x as [a| | |], y as [b| | |]; try reflexivity; try discriminate.
  rewrite ltb_fin, leb_fin. intros H. apply bool_decide_eq_true_1 in H.
  apply bool_decide_eq_true_2. now apply Qclt_le_weak.
Qed.

Lemma Math_min_spec (x y : number) :
  isNaN x = false -> isNaN y = false ->
  (Math_min x y = x \/ Math_min x y = y)
  /\ leb (Math_min x y) x = true /\ leb (Math_min x y) y = true.
Proof.
  intros Hx Hy.
  assert (H : Math_min x y = if ltb y x then y else x)
    by (destruct x, y; try discriminate; reflexivity).
  rewrite H. destruct (ltb y x) eqn:E.
  - split; [now right | split; [now apply ltb_leb | now apply leb_refl]].
  - split; [now left | split; [now apply leb_refl | now apply ltb_false_leb]].
Qed.

Lemma Math_max_spec (x y : number) :
  isNaN x = false -> isNaN y = false ->
  (Math_max x y = x \/ Math_max x y = y)
  /\ leb x (Math_max x y) = true /\ leb y (Math_max x y) = true.
Proof.
  intros Hx Hy.
  assert (H : Math_max x y = if ltb x y then y else x)
    by (destruct x, y; try discriminate; reflexivity).
  rewrite H. destruct (ltb x y) eqn:E.
  - split; [now right | split; [now apply ltb_leb | now apply leb_refl]].
  - split; [now left | split; [now apply leb_refl | now apply ltb_false_leb]].
Qed.

Lemma Math_min_NaN_l (y : number) : Math_min NaN y = NaN.
Proof. reflexivity. Qed.

Lemma Math_min_NaN_r (x : number) : Math_min x NaN = NaN.
Proof. now destruct x. Qed.

Lemma Math_max_NaN_r (x : number) : Math_max x NaN = NaN.
Proof. now destruct x. Qed.

Lemma fold_min_spec (xs : list number) :
  forall acc,
    isNaN acc = false -> Forall (fun x => isNaN x = false) xs ->
    (fold_left Math_min xs acc = acc \/ In (fold_left Math_min xs acc) xs)
    /\ leb (fold_left Math_min xs acc) acc = true
    /\ Forall (fun x => leb (fold_left Math_min xs acc) x = true) xs.
Proof.
  induction xs as [|x xs IH]; intros acc Hacc Hxs; cbn [fold_left].
  - split; [now left | split; [now apply leb_refl | constructor]].
  - inversion Hxs as [|? ? Hx Hxs']; subst.
    destruct (Math_min_spec acc x Hacc Hx) as (Hsel & Hle1 & Hle2).
    assert (Hm : isNaN (Math_min acc x) = false)
      by (destruct Hsel as [-> | ->]; assumption).
    destruct (IH (Math_min acc x) Hm Hxs') as (Hin & Hle & Hall).
    split; [| split].
    + destruct Hin as [-> | Hin]; [| right; now right].
      destruct Hsel as [-> | ->]; [now left | right; now left].
    + eapply leb_trans; eassumption.
    + constructor; [eapply leb_trans; eassumption | exact Hall].
Qed.

Lemma fold_max_spec (xs : list number) :
  forall acc,
    isNaN acc = false -> Forall (fun x => isNaN x = false) xs ->
    (fold_left Math_max xs acc = acc \/ In (fold_left Math_max xs acc) xs)
    /\ leb acc (fold_left Math_max xs acc) = true
    /\ Forall (fun x => leb x (fold_left Math_max xs acc) = true) xs.
Proof.
  induction xs as [|x xs IH]; intros acc Hacc Hxs; cbn [fold_left].
  - split; [now left | split; [now apply leb_refl | constructor]].
  - inversion Hxs as [|? ? Hx Hxs']; subst.
    destruct (Math_max_spec acc x Hacc Hx) as (Hsel & Hle1 & Hle2).
    assert (Hm : isNaN (Math_max acc x) = false)
      by (destruct Hsel as [-> | ->]; assumption).
    destruct (IH (Math_max acc x) Hm Hxs') as (Hin & Hle & Hall).
    split; [| split].
    + destruct Hin as [-> | Hin]; [| right; now right].
      destruct Hsel as [-> | ->]; [now left | right; now left].
    + eapply leb_trans; eassumption.
    + constructor; [eapply leb_trans; eassumption | exact Hall].
Qed.

Lemma fold_min_NaN (xs : list number) :
  forall acc,
    (isNaN acc = true \/ Exists (fun x => isNaN x = true) xs) ->
    fold_left Math_min xs acc = NaN.
Proof.
  induction xs as [|x xs IH]; intros acc [Hacc | Hex]; cbn [fold_left].
  - now destruct acc.
  - inversion Hex.
  - apply IH. left. now destruct acc.
  - apply IH. inversion Hex as [? ? Hx | ? ? Hex']; subst.
    + left. destruct x; try discriminate. now rewrite Math_min_NaN_r.
    + now right.
Qed.

(** In a non-empty list without [NaN], the minimum from [Infinity] is an
    element of the list. *)
Lemma min_spread_attained (xs : list number) :
  xs <> [] -> Forall (fun x => isNaN x = false) xs ->
  In (Math_min_spread xs) xs.
Proof.
  intros Hne Hxs. unfold Math_min_spread.
  destruct (fold_min_spec xs PInf eq_refl Hxs) as ([Heq | Hin] & _ & Hall);
    [| exact Hin].
  destruct xs as [|x xs]; [congruence |].
  rewrite Heq in *. inversion Hall as [|? ? Hx _]; subst.
  destruct x; try discriminate. rewrite <- Heq at 1. now left.
Qed.

Lemma max_spread_attained (xs : list number) :
  xs <> [] -> Forall (fun x => isNaN x = false) xs ->
  In (Math_max_spread xs) xs.
Proof.
  intros Hne Hxs. unfold Math_max_spread.
  destruct (fold_max_spec xs NInf eq_refl Hxs) as ([Heq | Hin] & _ & Hall);
    [| exact Hin].
  destruct xs as [|x xs]; [congruence |].
  rewrite Heq in *. inversion Hall as [|? ? Hx _]; subst.
  destruct x; try discriminate. rewrite <- Heq at 1. now left.
Qed.

(** X4: for a non-empty data set, the Max Drawdown the chart shows is [NaN]
    as soon as one drawdown is [NaN]; otherwise it is one of the drawdowns
    of the data and no drawdown of the data is below it. *)
Theorem chart_max_drawdown_is_the_least (data : list DrawdownChart.DrawdownData) :
  data <> [] ->
  (Exists (fun d => isNaN (DrawdownChart.drawdown d) = true) data ->
   DrawdownChart.maxDrawdown data = NaN)
  /\ (Forall (fun d => isNaN (DrawdownChart.drawdown d) = false) data ->
      In (DrawdownChart.maxDrawdown data) (map DrawdownChart.drawdown data)
      /\ Forall (fun d => leb (DrawdownChart.maxDrawdown data)
                              (DrawdownChart.drawdown d) = true) data).
Proof.
  intros Hne. unfold DrawdownChart.maxDrawdown, DrawdownChart.sampleData.
  destruct data as [|d data]; [congruence |]. cbn [length Nat.ltb Nat.leb].
  split.
  - intros Hex. apply fold_min_NaN. right. now apply Exists_map.
  - intros Hall.
    assert (Hvals : Forall (fun x => isNaN x = false)
                           (map DrawdownChart.drawdown (d :: data)))
      by (now apply Forall_map).
    split; [apply min_spread_attained; [discriminate | exact Hvals] |].
    destruct (fold_min_spec _ PInf eq_refl Hvals) as (_ & _ & Hle).
    now apply Forall_map in Hle.
Qed.

Lemma chart_max_drawdown_is_the_least_witness :
  Page.processDrawdownData Examples.by_chars Examples.gain_then_loss <> []
  /\ In (DrawdownChart.maxDrawdown
           (Page.processDrawdownData Examples.by_chars Examples.gain_then_loss))
        (map DrawdownChart.drawdown
           (Page.processDrawdownData Examples.by_chars Examples.gain_then_loss)).
Proof.
  assert (Hne : Page.processDrawdownData Examples.by_chars Examples.gain_then_loss
                <> []) by (vm_compute; discriminate).
  split; [exact Hne |].
  refine (proj1 (proj2 (chart_max_drawdown_is_the_least _ Hne) _)).
  vm_compute. repeat constructor.
Defined.

(** ** Best and worst trade *)

Lemma fold_max_NaN (xs : list number) :
  forall acc,
    (isNaN acc = true \/ Exists (fun x => isNaN x = true) xs) ->
    fold_left Math_max xs acc = NaN.
Proof.
  induction xs as [|x xs IH]; intros acc [Hacc | Hex]; cbn [fold_left].
  - now destruct acc.
  - inversion Hex.
  - apply IH. left. now destruct acc.
  - apply IH. inversion Hex as [? ? Hx | ? ? Hex']; subst.
    + left. destruct x; try discriminate. now rewrite Math_max_NaN_r.
    + now right.
Qed.

(** X5: for a non-empty trade list, the Best Trade and the Worst Trade of
    the insights (before they are printed to two decimals) are [NaN] as
    soon as one [pnl_pct] is [NaN]; otherwise each is the [pnl_pct] of a
    trade of the list (a missing one counting as 0), and the [pnl_pct] of
    every trade lies between the two. *)
Theorem best_and_worst_trade_are_attained (trades : list Types.Trade) :
  trades <> [] ->
  (Exists (fun t => isNaN (nullish0 (Types.pnl_pct t)) = true) trades ->
   PerformanceDashboard.bestTrade trades = NaN
   /\ PerformanceDashboard.worstTrade trades = NaN)
  /\ (Forall (fun t => isNaN (nullish0 (Types.pnl_pct t)) = false) trades ->
      In (PerformanceDashboard.bestTrade trades)
         (map (fun t => nullish0 (Types.pnl_pct t)) trades)
      /\ In (PerformanceDashboard.worstTrade trades)
            (map (fun t => nullish0 (Types.pnl_pct t)) trades)
      /\ Forall (fun t =>
                   leb (PerformanceDashboard.worstTrade trades)
                       (nullish0 (Types.pnl_pct t)) = true
                   /\ leb (nullish0 (Types.pnl_pct t))
                          (PerformanceDashboard.bestTrade trades) = true)
                trades).
Proof.
  intros Hne.
  unfold PerformanceDashboard.bestTrade, PerformanceDashboard.worstTrade.
  set (vals := map (fun t => nullish0 (Types.pnl_pct t)) trades).
  assert (Hvne : vals <> []) by (destruct trades; [congruence | discriminate]).
  split.
  - intros Hex.
    assert (Hex' : Exists (fun x => isNaN x = true) vals) by (now apply Exists_map).
    split; [apply fold_max_NaN | apply fold_min_NaN]; now right.
  - intros Hall.
    assert (Hvals : Forall (fun x => isNaN x = false) vals) by (now apply Forall_map).
    split; [now apply max_spread_attained |].
    split; [now apply min_spread_attained |].
    destruct (fold_min_spec vals PInf eq_refl Hvals) as (_ & _ & Hmin).
    destruct (fold_max_spec vals NInf eq_refl Hvals) as (_ & _ & Hmax).
    apply Forall_map in Hmin. apply Forall_map in Hmax.
    apply Forall_forall. intros t Ht.
    rewrite Forall_forall in Hmin, Hmax.
    split; [exact (Hmin t Ht) | exact (Hmax t Ht)].
Qed.

Lemma best_and_worst_trade_are_attained_witness :
  Examples.mixed <> []
  /\ In (PerformanceDashboard.bestTrade Examples.mixed)
        (map (fun t => nullish0 (Types.pnl_pct t)) Examples.mixed).
Proof.
  assert (Hne : Examples.mixed <> []) by discriminate.
  split; [exact Hne |].
  refine (proj1 (proj2 (best_and_worst_trade_are_attained _ Hne) _)).
  repeat constructor.
Defined.

(** ** Sums and averages *)

Lemma qz_Qc_of_Z (z : Z) : qz z = Qc_of_Z z.
Proof. apply Qc_is_canon. unfold qz. cbn [this Q2Qc Qc_of_Z]. apply Qred_correct. Qed.

Lemma qz_pos (n : nat) : (0 < n)%nat -> qz 0 < qz (Z.of_nat n).
Proof.
  intros H. rewrite !qz_Qc_of_Z.
  apply (proj1 (Z2Qc_inj_lt 0 (Z.of_nat n))). lia.
Qed.

Lemma div_by_count (s : Qc) (n : nat) :
  (0 < n)%nat -> div (Fin s) (of_nat n) = Fin (s / qz (Z.of_nat n)).
Proof.
  intros H. unfold div, of_nat, num.
  assert (Hgt : (qz (Z.of_nat n) ?= qz 0) = Gt) by (apply Qcgt_alt, qz_pos, H).
  now rewrite Hgt.
Qed.

Lemma reduce_sum (trades : list Types.Trade) :
  fold_left (fun sum t => add sum (nullish0 (Types.pnl_pct t))) trades (num 0)
  = Spec.summed_return trades.
Proof. rewrite reduce_sum_from. apply add_zero_l. Qed.

(** ** Average winner and average loser *)

Lemma round2_abs_nonneg (x : Qc) : qz 0 <= x -> qz 0 <= round2_abs x.
Proof.
  intros Hx. unfold round2_abs.
  apply (Qcmult_lt_0_le_reg_r _ _ (qz 100)); [reflexivity |].
  replace (qz (Qfloor (this (x * qz 100 + qz 1 / qz 2))) / qz 100 * qz 100)
    with (qz (Qfloor (this (x * qz 100 + qz 1 / qz 2)))) by (field; discriminate).
  change (qz 0 * qz 100) with (qz 0).
  apply qz_le. change 0%Z with (Qfloor (this (qz 0))).
  apply Qfloor_Qc_le. change (qz 0) with 0%Qc in *.
  apply Qcplus_nonneg_nonneg; [| discriminate].
  apply Qcmult_nonneg_nonneg; [exact Hx | discriminate].
Qed.

Lemma toFixed2_nonpos (x : Qc) :
  x <= qz 0 -> exists y, toFixed2 (Fin x) = Fin y /\ y <= qz 0.
Proof.
  intros Hx. destruct (Qcle_lt_or_eq _ _ Hx) as [Hlt | ->];
    [| exists (qz 0); split; [by_evaluation | apply Qcle_refl]].
  unfold toFixed2.
  assert (Hneg : ltb (Fin x) (num 0) = true)
    by (unfold num; rewrite ltb_fin; now apply bool_decide_eq_true_2).
  rewrite Hneg. destruct (leb (num (10 ^ 21)) (Fin (- x))).
  - exists x. now split.
  - exists (- round2_abs (- x)). split; [reflexivity |].
    change (qz 0) with (- qz 0). apply Qcopp_le_compat, round2_abs_nonneg.
    change (qz 0) with (- qz 0). now apply Qcopp_le_compat.
Qed.

(** [Math.max(1, n)] of a count is a number from 1 on. *)
Lemma divisor_at_least_one (n : nat) :
  exists m, Math_max (num 1) (of_nat n) = Fin m /\ qz 0 < m.
Proof.
  destruct (Math_max_fin (qz 1) (qz (Z.of_nat n))) as (m & Hm & H1 & _).
  exists m. split; [exact Hm |].
  eapply Qclt_le_trans; [| exact H1]. reflexivity.
Qed.

Lemma div_by_positive (s m : Qc) :
  qz 0 < m ->
  div (Fin s) (Fin m) = Fin (s / m)
  /\ (qz 0 <= s -> qz 0 <= s / m) /\ (s <= qz 0 -> s / m <= qz 0).
Proof.
  intros Hm. unfold div.
  assert (Hgt : (m ?= qz 0) = Gt) by (now apply Qcgt_alt).
  rewrite Hgt. split; [reflexivity |].
  change (qz 0) with 0%Qc in *.
  assert (Hinv : 0 < / m) by (now apply Qcinv_pos).
  split; intros Hs.
  - apply Qcmult_nonneg_nonneg; [exact Hs | now apply Qclt_le_weak].
  - replace 0 with (0 * / m) by ring.
    apply Qcmult_le_mono_nonneg_r; [now apply Qclt_le_weak | exact Hs].
Qed.

(** Numbers that are not below zero (so not [NaN]) stay so under addition,
    division by a positive number and printing to two decimals; likewise
    those that are not above zero. *)
Lemma add_nonneg (x y : number) :
  leb (num 0) x = true -> leb (num 0) y = true -> leb (num 0) (add x y) = true.
Proof.
  destruct x as [a| | |], y as [b| | |]; try discriminate; try reflexivity.
  unfold num, add. rewrite !leb_fin. intros Ha Hb.
  apply bool_decide_eq_true_1 in Ha. apply bool_decide_eq_true_1 in Hb.
  apply bool_decide_eq_true_2. change (qz 0) with 0%Qc in *.
  now apply Qcplus_nonneg_nonneg.
Qed.

Lemma add_nonpos (x y : number) :
  leb x (num 0) = true -> leb y (num 0) = true -> leb (add x y) (num 0) = true.
Proof.
  destruct x as [a| | |], y as [b| | |]; try discriminate; try reflexivity.
  unfold num, add. rewrite !leb_fin. intros Ha Hb.
  apply bool_decide_eq_true_1 in Ha. apply bool_decide_eq_true_1 in Hb.
  apply bool_decide_eq_true_2. change (qz 0) with 0%Qc in *.
  now apply Qcplus_nonpos_nonpos.
Qed.

Lemma average_nonneg (x : number) (m : Qc) :
  qz 0 < m -> leb (num 0) x = true ->
  leb (num 0) (toFixed2 (div x (Fin m))) = true.
Proof.
  intros Hm. destruct x as [s| | |]; try discriminate; intros Hx.
  - unfold num in Hx. rewrite leb_fin in Hx. apply bool_decide_eq_true_1 in Hx.
    destruct (div_by_positive s m Hm) as (-> & Hpos & _).
    destruct (toFixed2_bounds _ (Hpos Hx)) as (y & -> & Hy & _).
    unfold num. rewrite leb_fin. now apply bool_decide_eq_true_2.
  - unfold div. rewrite (proj1 (Qcgt_alt _ _) Hm). reflexivity.
Qed.

Lemma average_nonpos (x : number) (m : Qc) :
  qz 0 < m -> leb x (num 0) = true ->
  leb (toFixed2 (div x (Fin m))) (num 0) = true.
Proof.
  intros Hm. destruct x as [s| | |]; try discriminate; intros Hx.
  - unfold num in Hx. rewrite leb_fin in Hx. apply bool_decide_eq_true_1 in Hx.
    destruct (div_by_positive s m Hm) as (-> & _ & Hneg).
    destruct (toFixed2_nonpos _ (Hneg Hx)) as (y & -> & Hy).
    unfold num. rewrite leb_fin. now apply bool_decide_eq_true_2.
  - unfold div. rewrite (proj1 (Qcgt_alt _ _) Hm). reflexivity.
Qed.

Lemma sum_of_winners (trades : list Types.Trade) :
  forall acc,
    leb (num 0) acc = true ->
    leb (num 0)
        (fold_left (fun sum t => add sum (nullish0 (Types.pnl_pct t)))
           (List.filter (fun t => gtb (nullish0 (Types.pnl_pct t)) (num 0)) trades)
           acc) = true.
Proof.
  induction trades as [|t rest IH]; intros acc Hacc; [exact Hacc |].
  cbn [List.filter].
  destruct (gtb (nullish0 (Types.pnl_pct t)) (num 0)) eqn:E; [| now apply IH].
  cbn [fold_left]. apply IH. apply add_nonneg; [exact Hacc |].
  now apply ltb_leb.
Qed.

Lemma sum_of_losers (trades : list Types.Trade) :
  forall acc,
    leb acc (num 0) = true ->
    leb (fold_left (fun sum t => add sum (nullish0 (Types.pnl_pct t)))
           (List.filter (fun t => ltb (nullish0 (Types.pnl_pct t)) (num 0)) trades)
           acc)
        (num 0) = true.
Proof.
  induction trades as [|t rest IH]; intros acc Hacc; [exact Hacc |].
  cbn [List.filter].
  destruct (ltb (nullish0 (Types.pnl_pct t)) (num 0)) eqn:E; [| now apply IH].
  cbn [fold_left]. apply IH. apply add_nonpos; [exact Hacc |].
  now apply ltb_leb.
Qed.

(** X6: for every non-empty trade list ([NaN] and infinite [pnl_pct]
    included), the Average Winner under the histogram is a number that is
    not below 0 and the Average Loser one that is not above 0, neither being
    [NaN]; without a winning trade the Average Winner is 0, the divisor
    being kept at 1. *)
Theorem average_winner_and_loser_signs (trades : list Types.Trade) :
  trades <> [] ->
  leb (num 0) (PnLHistogram.averageWinner trades) = true
  /\ leb (PnLHistogram.averageLoser trades) (num 0) = true
  /\ (Spec.winners trades = 0%nat -> PnLHistogram.averageWinner trades = num 0).
Proof.
  intros Hne.
  assert (Hlen : (0 <? length trades)%nat = true)
    by (destruct trades; [congruence | reflexivity]).
  unfold PnLHistogram.averageWinner, PnLHistogram.averageLoser.
  rewrite Hlen. split; [| split].
  - destruct (divisor_at_least_one
                (length (List.filter
                           (fun t => gtb (nullish0 (Types.pnl_pct t)) (num 0)) trades)))
      as (m & -> & Hm).
    apply average_nonneg; [exact Hm |]. now apply sum_of_winners.
  - destruct (divisor_at_least_one
                (length (List.filter
                           (fun t => ltb (nullish0 (Types.pnl_pct t)) (num 0)) trades)))
      as (m & -> & Hm).
    apply average_nonpos; [exact Hm |]. now apply sum_of_losers.
  - intros Hnone. rewrite winners_count in Hnone.
    apply length_zero_iff_nil in Hnone. rewrite Hnone. by_evaluation.
Qed.

Lemma average_winner_and_loser_signs_witness :
  Examples.two_losses <> []
  /\ PnLHistogram.averageWinner Examples.two_losses = num 0.
Proof.
  assert (Hne : Examples.two_losses <> []) by discriminate.
  split; [exact Hne |].
  refine (proj2 (proj2 (average_winner_and_loser_signs _ Hne)) _).
  reflexivity.
Defined.

(** ** Trade durations *)












(** [reduce] with "keep the current one when its key is greater" returns an
    element whose key no other key exceeds. *)
Lemma fold_greatest {A : Type} (key : A -> number) (l : list A) :
  forall acc,
    isNaN (key acc) = false -> Forall (fun x => isNaN (key x) = false) l ->
    let r := fold_left
               (fun best current =>
                  if gtb (key current) (key best) then current else best) l acc in
    (r = acc \/ In r l)
    /\ leb (key acc) (key r) = true
    /\ Forall (fun x => leb (key x) (key r) = true) l.
Proof.
  induction l as [|x l IH]; intros acc Hacc Hl; cbv zeta; cbn [fold_left].
  - split; [now left | split; [now apply leb_refl | constructor]].
  - inversion Hl as [|? ? Hx Hl']; subst.
    set (acc' := if gtb (key x) (key acc) then x else acc).
    assert (Hacc' : isNaN (key acc') = false /\ leb (key acc) (key acc') = true
                    /\ leb (key x) (key acc') = true /\ (acc' = acc \/ acc' = x)).
    { unfold acc', gtb. destruct (ltb (key acc) (key x)) eqn:E.
      - repeat split; [exact Hx | now apply ltb_leb | now apply leb_refl | now right].
      - repeat split; [exact Hacc | now apply leb_refl | now apply ltb_false_leb
                      | now left]. }
    destruct Hacc' as (Hnan & Hle1 & Hle2 & Hsel).
    destruct (IH acc' Hnan Hl') as (Hin & Hle & Hall). cbv zeta in *.
    split; [| split].
    + destruct Hin as [-> | Hin]; [| right; now right].
      destruct Hsel as [-> | ->]; [now left | right; now left].
    + eapply leb_trans; eassumption.
    + constructor; [eapply leb_trans; eassumption | exact Hall].
Qed.

Lemma reduce1_greatest {A : Type} (key : A -> number) (l : list A) :
  l <> [] -> Forall (fun x => isNaN (key x) = false) l ->
  exists best,
    reduce1 (fun best current =>
               if gtb (key current) (key best) then current else best) l
    = Some best
    /\ In best l
    /\ Forall (fun x => leb (key x) (key best) = true) l.
Proof.
  intros Hne Hl. destruct l as [|x l]; [congruence |].
  inversion Hl as [|? ? Hx Hl']; subst.
  destruct (fold_greatest key l x Hx Hl') as (Hin & Hle & Hall). cbv zeta in *.
  eexists. split; [reflexivity |]. split.
  - destruct Hin as [-> | Hin]; [now left | now right].
  - constructor; assumption.
Qed.

Lemma summed_return_finite (trades : list Types.Trade) :
  Spec.finite_pnl trades -> exists s, Spec.summed_return trades = Fin s.
Proof.
  induction 1 as [|t rest Ht _ [s Hs]]; [now exists (qz 0) |].
  unfold Spec.pnl in Ht. cbn [Spec.summed_return]. unfold Spec.pnl. rewrite Hs.
  destruct (nullish0 (Types.pnl_pct t)) as [a| | |]; try discriminate.
  now exists (a + s).
Qed.

Lemma toFixed2_finite (x : Qc) : exists y, toFixed2 (Fin x) = Fin y.
Proof.
  destruct (Qclt_le_dec x (qz 0)) as [H | H].
  - destruct (toFixed2_nonpos x (Qclt_le_weak _ _ H)) as (y & Hy & _). now exists y.
  - destruct (toFixed2_bounds x H) as (y & Hy & _). now exists y.
Qed.

Lemma sum_over_trades (tib : list TradeDurationChart.TradeWithDuration) (acc : number) :
  fold_left (fun sum t =>
               add sum (nullish0 (Types.pnl_pct (TradeDurationChart.trade t)))) tib acc
  = fold_left (fun sum t => add sum (nullish0 (Types.pnl_pct t)))
              (map TradeDurationChart.trade tib) acc.
Proof.
  revert acc. induction tib as [|t tib IH]; intros acc; [reflexivity |].
  cbn [fold_left map]. apply IH.
Qed.

Lemma bucket_average_finite (diff_minute : string -> string -> number)
  (trades : list Types.Trade) (bucket : TradeDurationChart.Bucket) :
  Spec.finite_pnl trades ->
  isNaN (TradeDurationChart.avgReturn
           (TradeDurationChart.bucketData_of
              (TradeDurationChart.tradesWithDuration diff_minute trades) bucket))
  = false.
Proof.
  intros Hfin. cbn [TradeDurationChart.bucketData_of TradeDurationChart.avgReturn].
  set (tib := List.filter _ _).
  assert (Htib : Spec.finite_pnl (map TradeDurationChart.trade tib)).
  { unfold Spec.finite_pnl in *. apply Forall_map. apply Forall_filter_keep.
    unfold TradeDurationChart.tradesWithDuration. apply Forall_map.
    cbn [TradeDurationChart.trade]. now apply Forall_filter_keep. }
  destruct (Nat.ltb_spec 0 (length tib)) as [Hlen | Hlen].
  - rewrite sum_over_trades, reduce_sum.
    destruct (summed_return_finite _ Htib) as [s ->].
    rewrite (div_by_count s _ Hlen).
    now destruct (toFixed2_finite (s / qz (Z.of_nat (length tib)))) as [y ->].
  - reflexivity.
Qed.

(** X8: for trades with finite [pnl_pct], whenever the duration chart has a
    bar, its Best Duration is one of the bars and no bar has a greater
    average return. *)
Theorem best_duration_has_greatest_average
  (diff_minute : string -> string -> number) (trades : list Types.Trade) :
  Spec.finite_pnl trades ->
  TradeDurationChart.durationData diff_minute trades <> [] ->
  exists best,
    TradeDurationChart.bestPerformingDuration diff_minute trades = Some best
    /\ In best (TradeDurationChart.durationData diff_minute trades)
    /\ Forall (fun bucket =>
                 leb (TradeDurationChart.avgReturn bucket)
                     (TradeDurationChart.avgReturn best) = true)
              (TradeDurationChart.durationData diff_minute trades).
Proof.
  intros Hfin Hne. unfold TradeDurationChart.bestPerformingDuration.
  apply reduce1_greatest; [exact Hne |].
  unfold TradeDurationChart.durationData in *.
  destruct (length (TradeDurationChart.tradesWithDuration diff_minute trades) =? 0)%nat;
    [constructor |].
  apply Forall_filter_keep, Forall_map, Forall_forall. intros bucket _.
  now apply bucket_average_finite.
Qed.

Lemma best_duration_has_greatest_average_witness :
  Spec.finite_pnl MoreExamples.timed_trades
  /\ TradeDurationChart.durationData MoreExamples.ten_minutes
       MoreExamples.timed_trades <> []
  /\ exists best,
       TradeDurationChart.bestPerformingDuration MoreExamples.ten_minutes
         MoreExamples.timed_trades = Some best.
Proof.
  assert (Hfin : Spec.finite_pnl MoreExamples.timed_trades) by (repeat constructor).
  assert (Hne : TradeDurationChart.durationData MoreExamples.ten_minutes
                  MoreExamples.timed_trades <> []) by (vm_compute; discriminate).
  split; [exact Hfin | split; [exact Hne |]].
  destruct (best_duration_has_greatest_average MoreExamples.ten_minutes
              MoreExamples.timed_trades Hfin Hne) as (best & Hbest & _).
  now exists best.
Defined.

(** ** Risk controls *)

Lemma leb_false_gtb (x y : number) :
  isNaN x = false -> isNaN y = false -> leb x y = false -> gtb x y = true.
Proof.
  unfold gtb.
  destruct x as [a| | |], y as [b| | |]; try reflexivity; try discriminate.
  intros _ _. rewrite ltb_fin, leb_fin. intros H.
  apply bool_decide_eq_false_1 in H. apply bool_decide_eq_true_2.
  now apply Qcnot_le_lt.
Qed.

Lemma leb_true_not_gtb (x y : number) : leb x y = true -> gtb x y = false.
Proof.
  unfold gtb.
  destruct x as [a| | |], y as [b| | |]; try reflexivity; try discriminate.
  rewrite ltb_fin, leb_fin. intros H. apply bool_decide_eq_true_1 in H.
  apply bool_decide_eq_false_2. now apply Qcle_not_lt.
Qed.

(** X9: for every risk level that is a number, the five figures of the risk
    panel fall in the same band: the label, the colour, the number of
    concurrent positions and the drawdown limit change together at 3 and at
    7, and the high risk warning is drawn exactly in the Aggressive band. *)
Theorem risk_bands_agree (risk : number) :
  isNaN risk = false ->
  (leb risk (num 3) = true
   /\ RiskControls.getRiskLabel risk = "Conservative"
   /\ RiskControls.getRiskColor risk = "text-green-400"
   /\ RiskControls.maxConcurrent risk = num 1
   /\ RiskControls.maxDrawdown risk = "5%"
   /\ RiskControls.highRiskWarning risk = false)
  \/ (gtb risk (num 3) = true /\ leb risk (num 7) = true
      /\ RiskControls.getRiskLabel risk = "Moderate"
      /\ RiskControls.getRiskColor risk = "text-yellow-400"
      /\ RiskControls.maxConcurrent risk = num 3
      /\ RiskControls.maxDrawdown risk = "10%"
      /\ RiskControls.highRiskWarning risk = false)
  \/ (gtb risk (num 7) = true
      /\ RiskControls.getRiskLabel risk = "Aggressive"
      /\ RiskControls.getRiskColor risk = "text-red-400"
      /\ RiskControls.maxConcurrent risk = num 5
      /\ RiskControls.maxDrawdown risk = "20%"
      /\ RiskControls.highRiskWarning risk = true).
Proof.
  intros Hrisk.
  unfold RiskControls.getRiskLabel, RiskControls.getRiskColor,
    RiskControls.maxConcurrent, RiskControls.maxDrawdown,
    RiskControls.highRiskWarning.
  destruct (leb risk (num 3)) eqn:H3.
  - left. repeat split. apply leb_true_not_gtb.
    apply (leb_trans _ _ _ H3). reflexivity.
  - destruct (leb risk (num 7)) eqn:H7.
    + right; left. repeat split;
        [now apply leb_false_gtb | now apply leb_true_not_gtb].
    + right; right. assert (Hg : gtb risk (num 7) = true)
        by (now apply leb_false_gtb).
      rewrite Hg. repeat split.
Qed.

Lemma risk_bands_agree_witness :
  isNaN (num 8) = false
  /\ RiskControls.highRiskWarning (num 8) = true.
Proof.
  split; [reflexivity |].
  destruct (risk_bands_agree (num 8) eq_refl)
    as [(H & _) | [(_ & H & _) | (_ & _ & _ & _ & _ & H)]];
    [discriminate H | discriminate H | exact H].
Defined.

(** The number the band multiplies the risk by before rounding. *)
Lemma maxPosition_fin (a : Qc) :
  exists x,
    RiskControls.maxPosition (Fin a) = Fin (qz (Qfloor (this (x + qz 1 / qz 2))))
    /\ ((a <= qz 3 /\ x = a * qz 2)
        \/ (qz 3 < a /\ a <= qz 7 /\ x = a * qz 3)
        \/ (qz 7 < a /\ x = a * qz 5)).
Proof.
  unfold RiskControls.maxPosition, num. rewrite !leb_fin.
  case_bool_decide as H3.
  - exists (a * qz 2). split; [reflexivity | now left].
  - apply Qcnot_le_lt in H3. case_bool_decide as H7.
    + exists (a * qz 3). split; [reflexivity | right; left; now repeat split].
    + apply Qcnot_le_lt in H7.
      exists (a * qz 5). split; [reflexivity | right; right; now split].
Qed.

(** X10: the Max Position of the risk panel never decreases when the risk
    level is raised, and on the slider's range from 1 to 10 it lies between
    2 and 50. *)
Theorem max_position_grows_with_risk (a b : Qc) :
  a <= b ->
  leb (RiskControls.maxPosition (Fin a)) (RiskControls.maxPosition (Fin b)) = true
  /\ (qz 1 <= a -> b <= qz 10 ->
      leb (num 2) (RiskControls.maxPosition (Fin a)) = true
      /\ leb (RiskControls.maxPosition (Fin b)) (num 50) = true).
Proof.
  intros Hab.
  destruct (maxPosition_fin a) as (x & -> & Hx).
  destruct (maxPosition_fin b) as (y & -> & Hy).
  assert (Hmono : forall u v : Qc,
             u <= v ->
             leb (Fin (qz (Qfloor (this (u + qz 1 / qz 2)))))
                 (Fin (qz (Qfloor (this (v + qz 1 / qz 2))))) = true).
  { intros u v Huv. rewrite leb_fin. apply bool_decide_eq_true_2, qz_le.
    apply Qfloor_Qc_le. now apply Qcplus_le_mono_r. }
  split.
  - apply Hmono.
    destruct Hx as [(Ha & ->) | [(Ha1 & Ha2 & ->) | (Ha & ->)]],
             Hy as [(Hb & ->) | [(Hb1 & Hb2 & ->) | (Hb & ->)]];
      qc_linear.
  - intros H1 H10. split.
    + change (num 2) with (Fin (qz (Qfloor (this (qz 2 + qz 1 / qz 2))))).
      apply Hmono.
      destruct Hx as [(Ha & ->) | [(Ha1 & Ha2 & ->) | (Ha & ->)]]; qc_linear.
    + change (num 50) with (Fin (qz (Qfloor (this (qz 50 + qz 1 / qz 2))))).
      apply Hmono.
      destruct Hy as [(Hb & ->) | [(Hb1 & Hb2 & ->) | (Hb & ->)]]; qc_linear.
Qed.

Lemma max_position_grows_with_risk_witness :
  qz 3 <= qz 4
  /\ leb (RiskControls.maxPosition (Fin (qz 3)))
         (RiskControls.maxPosition (Fin (qz 4))) = true.
Proof.
  assert (H : qz 3 <= qz 4) by discriminate.
  split; [exact H |].
  exact (proj1 (max_position_grows_with_risk (qz 3) (qz 4) H)).
Defined.

(** ** Indicator check boxes *)

(** X11: toggling a check box flips that indicator and no other, whatever
    the key, and toggling it twice leaves every indicator selected or not
    as it was. *)
Theorem toggle_flips_one_indicator (indicators : gmap string bool) (key : string) :
  IndicatorConfigurator.isSelected (IndicatorConfigurator.toggle indicators key) key
  = negb (IndicatorConfigurator.isSelected indicators key)
  /\ (forall other, other <> key ->
        IndicatorConfigurator.isSelected (IndicatorConfigurator.toggle indicators key) other
        = IndicatorConfigurator.isSelected indicators other)
  /\ (forall any,
        IndicatorConfigurator.isSelected
          (IndicatorConfigurator.toggle (IndicatorConfigurator.toggle indicators key) key)
          any
        = IndicatorConfigurator.isSelected indicators any).
Proof.
  assert (Hsame : forall m, IndicatorConfigurator.isSelected
                              (IndicatorConfigurator.toggle m key) key
                            = negb (IndicatorConfigurator.isSelected m key)).
  { intros m. unfold IndicatorConfigurator.toggle.
    unfold IndicatorConfigurator.isSelected at 1. now rewrite lookup_insert_eq. }
  assert (Hother : forall m other, other <> key ->
             IndicatorConfigurator.isSelected (IndicatorConfigurator.toggle m key) other
             = IndicatorConfigurator.isSelected m other).
  { intros m other Hne. unfold IndicatorConfigurator.toggle.
    unfold IndicatorConfigurator.isSelected at 1 3.
    rewrite lookup_insert_ne by congruence. reflexivity. }
  split; [apply Hsame | split; [apply Hother |]].
  intros any. destruct (decide (any = key)) as [-> | Hne].
  - rewrite !Hsame. apply negb_involutive.
  - now rewrite !Hother.
Qed.

Lemma selected_insert_fresh (m : gmap string bool) (key : string) (v : bool) :
  m !! key = None ->
  IndicatorConfigurator.selected (<[key := v]> m)
  = ((if v then 1 else 0) + IndicatorConfigurator.selected m)%nat.
Proof.
  intros Hnone. unfold IndicatorConfigurator.selected.
  assert (Hperm : Permutation (map snd (map_to_list (<[key := v]> m)))
                              (v :: map snd (map_to_list m))).
  { rewrite (map_to_list_insert m key v Hnone). reflexivity. }
  rewrite (Permutation_length (filter_perm (fun b : bool => b) _ _ Hperm)).
  cbn [List.filter]. destruct v; reflexivity.
Qed.

Lemma selected_own (m : gmap string bool) (key : string) (b : bool) :
  m !! key = Some b ->
  IndicatorConfigurator.selected m
  = ((if b then 1 else 0) + IndicatorConfigurator.selected (delete key m))%nat.
Proof.
  intros Hsome. rewrite <- (selected_insert_fresh (delete key m) key b)
    by apply lookup_delete_eq.
  now rewrite insert_delete_id.
Qed.

(** X12: toggling an indicator that the object holds, or one it does not
    hold under a name no object inherits, changes the Selected count by
    exactly one: down when the indicator was selected, up when it was not. *)
Theorem toggle_changes_count_by_one (indicators : gmap string bool) (key : string) :
  (is_Some (indicators !! key) \/ ~ In key IndicatorConfigurator.Object_prototype) ->
  (IndicatorConfigurator.selected (IndicatorConfigurator.toggle indicators key)
   + (if IndicatorConfigurator.isSelected indicators key then 1 else 0))%nat
  = (IndicatorConfigurator.selected indicators
     + (if IndicatorConfigurator.isSelected indicators key then 0 else 1))%nat.
Proof.
  intros Hkey. unfold IndicatorConfigurator.toggle, IndicatorConfigurator.isSelected.
  destruct (indicators !! key) as [b|] eqn:Hlook.
  - rewrite (selected_own indicators key b Hlook).
    rewrite <- (insert_delete_eq indicators key (negb b)).
    rewrite selected_insert_fresh by apply lookup_delete_eq.
    destruct b; cbn [negb]; lia.
  - destruct Hkey as [[b Hb] | Hproto]; [discriminate |].
    rewrite bool_decide_eq_false_2
      by (intros Hin; apply Hproto; now apply list_elem_of_In).
    cbn [negb]. rewrite selected_insert_fresh by exact Hlook. lia.
Qed.

Lemma toggle_changes_count_by_one_witness :
  (is_Some (IndicatorConfigurator.clearAll !! "rsi")
   \/ ~ In "rsi" IndicatorConfigurator.Object_prototype)
  /\ (IndicatorConfigurator.selected
        (IndicatorConfigurator.toggle IndicatorConfigurator.clearAll "rsi")
      + (if IndicatorConfigurator.isSelected IndicatorConfigurator.clearAll "rsi"
         then 1 else 0))%nat
     = (IndicatorConfigurator.selected IndicatorConfigurator.clearAll
        + (if IndicatorConfigurator.isSelected IndicatorConfigurator.clearAll "rsi"
           then 0 else 1))%nat.
Proof.
  assert (H : is_Some (IndicatorConfigurator.clearAll !! "rsi")
              \/ ~ In "rsi" IndicatorConfigurator.Object_prototype)
    by (left; vm_compute; eauto).
  split; [exact H |].
  exact (toggle_changes_count_by_one IndicatorConfigurator.clearAll "rsi" H).
Defined.

(** ** Rows of the logic builder *)

Lemma filter_by_index_skips {A : Type} (l : list A) :
  forall i index,
    filter_by_index (fun j => negb (j =? index)%nat) i l
    = if (index <? i)%nat then l
      else take (index - i) l ++ drop (S (index - i)) l.
Proof.
  induction l as [|x l IH]; intros i index.
  - destruct (index <? i)%nat; [reflexivity |].
    now rewrite take_nil, drop_nil.
  - cbn [filter_by_index]. rewrite IH.
    destruct (Nat.ltb_spec index i) as [Hlt | Hge].
    + rewrite (proj2 (Nat.eqb_neq i index)) by lia. cbn [negb].
      now rewrite (proj2 (Nat.ltb_lt index (S i))) by lia.
    + destruct (Nat.eqb_spec i index) as [-> | Hne]; cbn [negb].
      * rewrite (proj2 (Nat.ltb_lt index (S index))) by lia.
        now rewrite Nat.sub_diag.
      * rewrite (proj2 (Nat.ltb_ge index (S i))) by lia.
        replace (index - i)%nat with (S (index - S i)) by lia. reflexivity.
Qed.

(** X13: deleting a row removes exactly the row at that index and keeps the
    others in order; past the end it changes nothing; deleting the row just
    added gives the group back. *)
Theorem remove_condition_deletes_one_row (logic : list Condition) (index : nat) :
  LogicBuilder.removeCondition logic index
  = take index logic ++ drop (S index) logic
  /\ ((length logic <= index)%nat -> LogicBuilder.removeCondition logic index = logic)
  /\ ((index < length logic)%nat ->
      S (length (LogicBuilder.removeCondition logic index)) = length logic)
  /\ LogicBuilder.removeCondition (LogicBuilder.addCondition logic) (length logic)
     = logic.
Proof.
  assert (Heq : forall l i, LogicBuilder.removeCondition l i
                            = take i l ++ drop (S i) l).
  { intros l i. unfold LogicBuilder.removeCondition.
    rewrite filter_by_index_skips. cbn. now rewrite Nat.sub_0_r. }
  split; [apply Heq | split; [| split]].
  - intros Hge. rewrite Heq, take_ge, drop_ge by lia. apply app_nil_r.
  - intros Hlt. rewrite Heq, length_app, length_take, length_drop. lia.
  - rewrite Heq. unfold LogicBuilder.addCondition.
    rewrite take_app_length, drop_ge by (rewrite length_app; cbn; lia).
    apply app_nil_r.
Qed.

Lemma update_keeps_rows (P : Condition -> Prop) (logic logic' : list Condition)
  (index : nat) (field : LogicBuilder.Field) (v : string) :
  Forall P logic ->
  (forall c, P c -> P (LogicBuilder.with_field c field v)) ->
  LogicBuilder.updateCondition logic index field v = Some logic' ->
  Forall P logic'.
Proof.
  intros Hall Hfield. unfold LogicBuilder.updateCondition.
  destruct (logic !! index) as [c|] eqn:Hc; [| discriminate].
  intros [= <-]. apply Forall_insert; [exact Hall |].
  apply Hfield. rewrite Forall_forall in Hall. apply Hall.
  now apply list_elem_of_lookup_2 in Hc.
Qed.

Lemma remove_keeps_rows (P : Condition -> Prop) (logic : list Condition) (index : nat) :
  Forall P logic -> Forall P (LogicBuilder.removeCondition logic index).
Proof.
  intros Hall. destruct (remove_condition_deletes_one_row logic index) as [-> _].
  apply Forall_app. split; [now apply Forall_take | now apply Forall_drop].
Qed.

(** X14: whatever the user does to a condition group that starts empty
    (adding and deleting rows, picking from the two selects, typing a right
    side), every condition has one of the seven offered operators, never
    [!=], and one of the fourteen indicators on its left. *)
Theorem built_conditions_use_offered_operators (logic : list Condition) :
  LogicBuilder.reachable logic ->
  Forall (fun c => In (op c) LogicBuilder.offered
                   /\ In (left c) LogicBuilder.INDICATORS
                   /\ op c <> "!=") logic.
Proof.
  assert (Hne : forall o, In o LogicBuilder.offered -> o <> "!=").
  { intros o Ho ->. repeat (destruct Ho as [Ho | Ho]; [discriminate |]). exact Ho. }
  induction 1 as [|logic logic' _ IH Hstep]; [constructor |].
  destruct Hstep as [logic | logic index Hin | logic logic' index v Hv Hup
                    | logic logic' index v Hv Hup | logic logic' index v Hup].
  - unfold LogicBuilder.addCondition. apply Forall_app. split; [exact IH |].
    repeat constructor; cbn; try tauto. discriminate.
  - now apply remove_keeps_rows.
  - eapply update_keeps_rows; [exact IH | | exact Hup].
    intros c (Hop & Hleft & Hneq). now repeat split.
  - eapply update_keeps_rows; [exact IH | | exact Hup].
    intros c (Hop & Hleft & Hneq). repeat split; [exact Hv | exact Hleft |].
    now apply Hne.
  - eapply update_keeps_rows; [exact IH | | exact Hup].
    intros c H. exact H.
Qed.

Lemma built_conditions_use_offered_operators_witness :
  LogicBuilder.reachable (LogicBuilder.addCondition [])
  /\ Forall (fun c => In (op c) LogicBuilder.offered
                      /\ In (left c) LogicBuilder.INDICATORS
                      /\ op c <> "!=")
            (LogicBuilder.addCondition []).
Proof.
  assert (H : LogicBuilder.reachable (LogicBuilder.addCondition []))
    by (eapply LogicBuilder.reach_step;
        [apply LogicBuilder.reach_start | apply LogicBuilder.ui_add]).
  split; [exact H |].
  exact (built_conditions_use_offered_operators _ H).
Defined.

(** ** The minimum trade size filter *)

Lemma abs_or0_nonneg (v : option number) :
  leb (num 0) (Math_abs (or0 v)) = true.
Proof.
  destruct v as [[a| | |]|]; try reflexivity.
  unfold or0, falsy. destruct (a ?= qz 0) eqn:E; cbv iota; try reflexivity.
  - unfold Math_abs, num. rewrite ltb_fin.
    rewrite bool_decide_eq_true_2 by (now apply Qclt_alt).
    rewrite leb_fin. apply bool_decide_eq_true_2.
    apply <- Qclt_alt in E. change (qz 0) with (- qz 0).
    now apply Qcopp_le_compat, Qclt_le_weak.
  - unfold Math_abs, num. rewrite ltb_fin.
    rewrite bool_decide_eq_false_2 by (rewrite Qclt_alt; congruence).
    rewrite leb_fin. apply bool_decide_eq_true_2.
    now apply Qclt_le_weak, Qcgt_alt.
Qed.

(** X15: a minimum trade size that is 0 or less keeps every trade, those
    with a missing, [NaN] or infinite [pnl_pct] included; a minimum that is
    [NaN] keeps none. *)
Theorem min_trade_size_edges (minTradeSize : number) (trades : list Types.Trade) :
  (leb minTradeSize (num 0) = true -> Page.by_minTradeSize minTradeSize trades = trades)
  /\ (isNaN minTradeSize = true -> Page.by_minTradeSize minTradeSize trades = []).
Proof.
  unfold Page.by_minTradeSize. split.
  - intros Hmin. induction trades as [|t rest IH]; [reflexivity |].
    cbn [List.filter]. unfold geb at 1.
    rewrite (leb_trans _ _ _ Hmin (abs_or0_nonneg (Types.pnl_pct t))).
    now rewrite IH.
  - intros Hnan. destruct minTradeSize; try discriminate.
    induction trades as [|t rest IH]; [reflexivity |].
    cbn [List.filter]. unfold geb at 1.
    replace (leb NaN (Math_abs (or0 (Types.pnl_pct t)))) with false by reflexivity.
    exact IH.
Qed.

(** ** The heatmap's cells *)

Lemma Map_get_set (m : list (string * number)) (key key' : string) (v : number) :
  Page.Map_get (Page.Map_set m key v) key'
  = if String.eqb key key' then Some v else Page.Map_get m key'.
Proof.
  induction m as [|[k w] m IH]; cbn [Page.Map_set Page.Map_get].
  - destruct (String.eqb_spec key key'); reflexivity.
  - destruct (String.eqb_spec k key) as [-> | Hne]; cbn [Page.Map_get].
    + destruct (String.eqb_spec key key'); reflexivity.
    + destruct (String.eqb_spec k key') as [-> | Hne'].
      * now rewrite (proj2 (String.eqb_neq key key')) by congruence.
      * exact IH.
Qed.

Lemma Map_set_keys (m : list (string * number)) (key : string) (v : number) :
  map fst (Page.Map_set m key v)
  = match Page.Map_get m key with
    | Some _ => map fst m
    | None => map fst m ++ [key]
    end.
Proof.
  induction m as [|[k w] m IH]; cbn [Page.Map_set Page.Map_get]; [reflexivity |].
  destruct (String.eqb_spec k key) as [-> | Hne]; [reflexivity |].
  cbn [map fst]. rewrite IH. now destruct (Page.Map_get m key).
Qed.

Lemma Map_get_None (m : list (string * number)) (key : string) :
  Page.Map_get m key = None <-> ~ In key (map fst m).
Proof.
  induction m as [|[k w] m IH]; cbn [Page.Map_get map fst]; [tauto |].
  destruct (String.eqb_spec k key) as [-> | Hne].
  - split; [discriminate | intros H; exfalso; apply H; now left].
  - rewrite IH. cbn [In]. tauto.
Qed.

(** A [Map] never holds a key twice. *)
Lemma Map_set_NoDup (m : list (string * number)) (key : string) (v : number) :
  List.NoDup (map fst m) -> List.NoDup (map fst (Page.Map_set m key v)).
Proof.
  intros Hm. rewrite Map_set_keys.
  destruct (Page.Map_get m key) eqn:E; [exact Hm |].
  apply Map_get_None in E.
  apply NoDup_ListNoDup, NoDup_app. apply NoDup_ListNoDup in Hm.
  split; [exact Hm | split].
  - intros x Hx Hx'. apply list_elem_of_In in Hx.
    apply list_elem_of_singleton in Hx'. subst. contradiction.
  - apply NoDup_singleton.
Qed.

Lemma Map_get_In (m : list (string * number)) (key : string) (v : number) :
  List.NoDup (map fst m) -> In (key, v) m -> Page.Map_get m key = Some v.
Proof.
  induction m as [|[k w] m IH]; intros Hnd Hin; [destruct Hin |].
  cbn [map fst] in Hnd. inversion Hnd as [|? ? Hk Hnd']; subst.
  cbn [Page.Map_get]. destruct Hin as [[= -> ->] | Hin].
  - now rewrite String.eqb_refl.
  - destruct (String.eqb_spec k key) as [-> | Hne]; [| now apply IH].
    exfalso. apply Hk. apply in_map_iff. now exists (key, v).
Qed.

Lemma fill_keeps (entries : list (string * number)) :
  forall m key v,
    Page.Map_get m key = Some v -> ~ In key (map fst entries) ->
    Page.Map_get (fold_left (fun m e => Page.Map_set m (fst e) (snd e)) entries m) key
    = Some v.
Proof.
  induction entries as [|[k w] entries IH]; intros m key v Hm Hk; [exact Hm |].
  cbn [fold_left fst snd]. apply IH.
  - rewrite Map_get_set.
    rewrite (proj2 (String.eqb_neq k key)); [exact Hm |].
    intros ->. apply Hk. now left.
  - intros H. apply Hk. now right.
Qed.

(** Filling a [Map] with entries whose keys differ gives each key its
    value. *)
Lemma fill_distinct (entries : list (string * number)) :
  forall m key v,
    List.NoDup (map fst entries) -> In (key, v) entries ->
    Page.Map_get (fold_left (fun m e => Page.Map_set m (fst e) (snd e)) entries m) key
    = Some v.
Proof.
  induction entries as [|[k w] entries IH]; intros m key v Hnd Hin;
    [destruct Hin |].
  cbn [map fst] in Hnd. inversion Hnd as [|? ? Hk Hnd']; subst.
  cbn [fold_left fst snd]. destruct Hin as [[= -> ->] | Hin]; [| now apply IH].
  apply fill_keeps; [| exact Hk].
  rewrite Map_get_set. now rewrite String.eqb_refl.
Qed.

Lemma heatmap_keys_NoDup (dayjs_ddd dayjs_isoWeek dayjs_year : string -> string)
  (trades : list Types.Trade) :
  forall m, List.NoDup (map fst m) ->
    List.NoDup (map fst (fold_left
                           (Page.heatmap_step dayjs_ddd dayjs_isoWeek dayjs_year)
                           trades m)).
Proof.
  induction trades as [|t rest IH]; intros m Hm; [exact Hm |].
  cbn [fold_left]. apply IH. unfold Page.heatmap_step.
  destruct (negb (truthy_str (Types.entry_time t))); [exact Hm |].
  now apply Map_set_NoDup.
Qed.

Lemma includes_app (c : Ascii.ascii) (s1 s2 : string) :
  includes_char c (s1 +:+ s2) = includes_char c s1 || includes_char c s2.
Proof.
  induction s1 as [|a s1 IH]; [reflexivity |].
  change (String a s1 +:+ s2) with (String a (s1 +:+ s2)).
  cbn [includes_char]. rewrite IH. now rewrite orb_assoc.
Qed.

Lemma split_without (c : Ascii.ascii) (s : string) :
  includes_char c s = false -> split_on c s = [s].
Proof.
  induction s as [|a s IH]; [reflexivity |]. cbn [includes_char split_on].
  destruct (Ascii.eqb a c); [discriminate |]. cbn [orb]. intros H.
  now rewrite (IH H).
Qed.

Lemma split_first (c : Ascii.ascii) (s1 s2 : string) :
  includes_char c s1 = false ->
  split_on c (s1 +:+ String c s2) = s1 :: split_on c s2.
Proof.
  induction s1 as [|a s1 IH].
  - intros _. change (EmptyString +:+ String c s2) with (String c s2).
    cbn [split_on]. now rewrite Ascii.eqb_refl.
  - change (String a s1 +:+ String c s2) with (String a (s1 +:+ String c s2)).
    cbn [includes_char split_on].
    destruct (Ascii.eqb a c); [discriminate |]. cbn [orb]. intros H.
    now rewrite (IH H).
Qed.

(** A point made from a key without a bar in either half is found again
    under that key. *)
Lemma heatmap_entry_key (weekday week : string) (v : number) :
  includes_char "|" weekday = false -> includes_char "|" week = false ->
  let point := Page.heatmap_entry (weekday +:+ "|" +:+ week, v) in
  ReturnHeatmap.cell_key (Page.x point) (Page.y point) = weekday +:+ "|" +:+ week
  /\ Page.value point = toFixed2 v.
Proof.
  intros Hd Hw. cbv zeta. unfold Page.heatmap_entry. cbn [fst snd].
  change ("|" +:+ week) with (String "|" week).
  rewrite (split_first _ _ _ Hd), (split_without _ _ Hw).
  cbn [nth Page.x Page.y Page.value]. now split.
Qed.

Lemma heatmap_keys_shape (dayjs_ddd dayjs_isoWeek dayjs_year : string -> string)
  (trades : list Types.Trade) :
  forall m,
    Forall (fun e => exists weekday week,
                       fst e = weekday +:+ "|" +:+ week
                       /\ includes_char "|" weekday = false
                       /\ includes_char "|" week = false) m ->
    (forall ts, includes_char "|" (dayjs_ddd ts) = false
                /\ includes_char "|" (dayjs_isoWeek ts) = false
                /\ includes_char "|" (dayjs_year ts) = false) ->
    Forall (fun e => exists weekday week,
                       fst e = weekday +:+ "|" +:+ week
                       /\ includes_char "|" weekday = false
                       /\ includes_char "|" week = false)
           (fold_left (Page.heatmap_step dayjs_ddd dayjs_isoWeek dayjs_year) trades m).
Proof.
  induction trades as [|t rest IH]; intros m Hm Hbars; [exact Hm |].
  cbn [fold_left]. apply IH; [| exact Hbars]. unfold Page.heatmap_step.
  destruct (negb (truthy_str (Types.entry_time t))); [exact Hm |].
  set (ts := or_empty (Types.entry_time t)).
  destruct (Hbars ts) as (Hd & Hi & Hy).
  set (key := dayjs_ddd ts +:+ "|" +:+ "Week " +:+ dayjs_isoWeek ts +:+ "-"
              +:+ dayjs_year ts).
  set (v := add _ _). clearbody v.
  assert (Hkey : exists weekday week,
             key = weekday +:+ "|" +:+ week
             /\ includes_char "|" weekday = false
             /\ includes_char "|" week = false).
  { exists (dayjs_ddd ts), ("Week " +:+ dayjs_isoWeek ts +:+ "-" +:+ dayjs_year ts).
    split; [reflexivity | split; [exact Hd |]].
    rewrite !includes_app, Hi, Hy. reflexivity. }
  clearbody key. clear -Hm Hkey.
  induction Hm as [|[k w] m Hk Hm IHm]; cbn [Page.Map_set].
  - repeat constructor. exact Hkey.
  - destruct (String.eqb k key); constructor; assumption.
Qed.

(** X16: when the texts [dayjs] gives for the weekday, the week and the year
    hold no bar, every point [processHeatmapData] returns is found by the
    heatmap in the cell of its own weekday and week, with its own value: no
    two points fall in one cell. *)
Theorem heatmap_points_keep_their_cells
  (dayjs_ddd dayjs_isoWeek dayjs_year : string -> string)
  (trades : list Types.Trade) (point : Page.HeatmapPoint) :
  (forall ts, includes_char "|" (dayjs_ddd ts) = false
              /\ includes_char "|" (dayjs_isoWeek ts) = false
              /\ includes_char "|" (dayjs_year ts) = false) ->
  In point (Page.processHeatmapData dayjs_ddd dayjs_isoWeek dayjs_year trades) ->
  ReturnHeatmap.cell
    (Page.processHeatmapData dayjs_ddd dayjs_isoWeek dayjs_year trades)
    (Page.x point) (Page.y point)
  = Some (Page.value point).
Proof.
  intros Hbars Hin. unfold ReturnHeatmap.cell, ReturnHeatmap.dataMap,
    Page.processHeatmapData in *.
  set (m := fold_left (Page.heatmap_step dayjs_ddd dayjs_isoWeek dayjs_year) trades [])
    in *.
  assert (Hnd : List.NoDup (map fst m))
    by (apply heatmap_keys_NoDup; constructor).
  assert (Hshape := heatmap_keys_shape dayjs_ddd dayjs_isoWeek dayjs_year trades []
                      (Forall_nil_2 _) Hbars).
  fold m in Hshape. clearbody m.
  assert (Hfold : forall (data : list Page.HeatmapPoint) acc,
             fold_left (fun m d => Page.Map_set m
                                     (ReturnHeatmap.cell_key (Page.x d) (Page.y d))
                                     (Page.value d)) data acc
             = fold_left (fun m e => Page.Map_set m (fst e) (snd e))
                 (map (fun d => (ReturnHeatmap.cell_key (Page.x d) (Page.y d),
                                 Page.value d)) data) acc).
  { induction data as [|d data IH]; intros acc; [reflexivity |].
    cbn [fold_left map fst snd]. apply IH. }
  rewrite Hfold, map_map.
  assert (Hentries :
    map (fun e => (ReturnHeatmap.cell_key (Page.x (Page.heatmap_entry e))
                                          (Page.y (Page.heatmap_entry e)),
                   Page.value (Page.heatmap_entry e))) m
    = map (fun e => (fst e, toFixed2 (snd e))) m).
  { clear -Hshape. induction Hshape as [|[k w] m (weekday & week & Hk & Hd & Hw) _ IH];
      [reflexivity |].
    cbn [map]. rewrite IH. f_equal. cbn [fst snd] in *. subst k.
    destruct (heatmap_entry_key weekday week w Hd Hw) as [H1 H2]. cbv zeta in *.
    now rewrite H1, H2. }
  rewrite Hentries.
  apply in_map_iff in Hin. destruct Hin as ([k w] & <- & Hin).
  rewrite Forall_forall in Hshape.
  destruct (Hshape (k, w) (proj2 (list_elem_of_In _ _) Hin))
    as (weekday & week & Hk & Hd & Hw).
  cbn [fst] in Hk. subst k.
  destruct (heatmap_entry_key weekday week w Hd Hw) as [H1 H2]. cbv zeta in *.
  rewrite H1, H2. apply fill_distinct.
  - rewrite map_map. cbn [fst]. exact Hnd.
  - apply in_map_iff. now exists (weekday +:+ "|" +:+ week, w).
Qed.

Lemma heatmap_points_keep_their_cells_witness :
  (forall ts, includes_char "|" (MoreExamples.always_monday ts) = false
              /\ includes_char "|" (MoreExamples.always_week_1 ts) = false
              /\ includes_char "|" (MoreExamples.always_2024 ts) = false)
  /\ ReturnHeatmap.cell
       (Page.processHeatmapData MoreExamples.always_monday
          MoreExamples.always_week_1 MoreExamples.always_2024
          MoreExamples.timed_trades)
       "Mon" "Week 1-2024"
     = Some (num 2).
Proof.
  assert (H : forall ts,
             includes_char "|" (MoreExamples.always_monday ts) = false
             /\ includes_char "|" (MoreExamples.always_week_1 ts) = false
             /\ includes_char "|" (MoreExamples.always_2024 ts) = false)
    by (intros ts; repeat split).
  split; [exact H |].
  apply (heatmap_points_keep_their_cells MoreExamples.always_monday
           MoreExamples.always_week_1 MoreExamples.always_2024
           MoreExamples.timed_trades
           (Page.mkHeatmapPoint "Mon" "Week 1-2024" (num 2)) H).
  left. by_evaluation.
Defined.

(** ** The heatmap's cells are those of the trades *)

(** The key under which [processHeatmapData] books a trade. *)
Lemma heatmap_step_keys (dayjs_ddd dayjs_isoWeek dayjs_year : string -> string)
  (trades : list Types.Trade) :
  forall m key,
    In key (map fst (fold_left (Page.heatmap_step dayjs_ddd dayjs_isoWeek dayjs_year)
                               trades m))
    <-> In key (map fst m)
        \/ exists t,
             In t trades /\ truthy_str (Types.entry_time t) = true
             /\ key = dayjs_ddd (or_empty (Types.entry_time t)) +:+ "|" +:+ "Week "
                      +:+ dayjs_isoWeek (or_empty (Types.entry_time t)) +:+ "-"
                      +:+ dayjs_year (or_empty (Types.entry_time t)).
Proof.
  induction trades as [|t rest IH]; intros m key; cbn [fold_left].
  - split; [now left | intros [H | (t & [] & _)]; exact H].
  - rewrite IH. unfold Page.heatmap_step.
    destruct (truthy_str (Types.entry_time t)) eqn:Ht; cbn [negb].
    + set (k := dayjs_ddd _ +:+ _). set (v := add _ _). clearbody v.
      rewrite Map_set_keys.
      assert (Hkeys : In key (match Page.Map_get m k with
                              | Some _ => map fst m
                              | None => map fst m ++ [k]
                              end)
                      <-> In key (map fst m) \/ key = k).
      { destruct (Page.Map_get m k) eqn:E.
        - split; [now left | intros [H | ->]; [exact H |]].
          destruct (decide (k ∈ map fst m)) as [Hin | Hout];
            [now apply list_elem_of_In |].
          rewrite list_elem_of_In in Hout. apply Map_get_None in Hout. congruence.
        - rewrite in_app_iff. cbn [In]. intuition congruence. }
      rewrite Hkeys. split.
      * intros [[H | ->] | (t' & Hin & Ht' & Hk)];
          [now left | right; exists t; repeat split; [now left | exact Ht]
          | right; exists t'; repeat split; [now right | exact Ht' | exact Hk]].
      * intros [H | (t' & [<- | Hin] & Ht' & Hk)];
          [left; now left | left; now right
          | right; exists t'; now repeat split].
    + split.
      * intros [H | (t' & Hin & Ht' & Hk)];
          [now left | right; exists t'; repeat split; [now right | exact Ht' | exact Hk]].
      * intros [H | (t' & [<- | Hin] & Ht' & Hk)];
          [now left | congruence | right; exists t'; now repeat split].
Qed.

Lemma heatmap_step_length (dayjs_ddd dayjs_isoWeek dayjs_year : string -> string)
  (trades : list Types.Trade) :
  forall m,
    (length (fold_left (Page.heatmap_step dayjs_ddd dayjs_isoWeek dayjs_year) trades m)
     <= length m
        + length (List.filter (fun t => truthy_str (Types.entry_time t)) trades))%nat.
Proof.
  induction trades as [|t rest IH]; intros m; cbn [fold_left List.filter]; [lia |].
  etransitivity; [apply IH |]. unfold Page.heatmap_step.
  destruct (truthy_str (Types.entry_time t)); cbn [negb length]; [| lia].
  set (k := dayjs_ddd _ +:+ _). set (v := add _ _). clearbody v.
  assert (Hlen : (length (Page.Map_set m k v) <= S (length m))%nat).
  { rewrite <- (length_map fst), Map_set_keys.
    destruct (Page.Map_get m k); rewrite ?length_app, length_map; cbn; lia. }
  lia.
Qed.

(** A point made from a key without a bar in either half has the halves as
    its weekday and its week. *)
Lemma heatmap_entry_halves (weekday week : string) (v : number) :
  includes_char "|" weekday = false -> includes_char "|" week = false ->
  Page.x (Page.heatmap_entry (weekday +:+ "|" +:+ week, v)) = weekday
  /\ Page.y (Page.heatmap_entry (weekday +:+ "|" +:+ week, v)) = week.
Proof.
  intros Hd Hw. unfold Page.heatmap_entry. cbn [fst snd].
  change ("|" +:+ week) with (String "|" week).
  rewrite (split_first _ _ _ Hd), (split_without _ _ Hw).
  cbn [nth Page.x Page.y]. now split.
Qed.

(** X17: when the texts [dayjs] gives for the weekday, the week and the year
    hold no bar, the cells of the points [processHeatmapData] returns are
    exactly the cells of the trades that have an entry time: the weekday of
    the entry with the week [Week w-y] of the entry.  A trade without an
    entry time gives no point, and there are no more points than trades
    with an entry time. *)
Theorem heatmap_cells_are_the_trades_cells
  (dayjs_ddd dayjs_isoWeek dayjs_year : string -> string)
  (trades : list Types.Trade) :
  (forall ts, includes_char "|" (dayjs_ddd ts) = false
              /\ includes_char "|" (dayjs_isoWeek ts) = false
              /\ includes_char "|" (dayjs_year ts) = false) ->
  (forall weekday week,
      (exists point,
          In point (Page.processHeatmapData dayjs_ddd dayjs_isoWeek dayjs_year trades)
          /\ Page.x point = weekday /\ Page.y point = week)
      <-> (exists t,
              In t trades /\ truthy_str (Types.entry_time t) = true
              /\ weekday = dayjs_ddd (or_empty (Types.entry_time t))
              /\ week = "Week " +:+ dayjs_isoWeek (or_empty (Types.entry_time t))
                        +:+ "-" +:+ dayjs_year (or_empty (Types.entry_time t))))
  /\ (length (Page.processHeatmapData dayjs_ddd dayjs_isoWeek dayjs_year trades)
      <= length (List.filter (fun t => truthy_str (Types.entry_time t)) trades))%nat.
Proof.
  intros Hbars. unfold Page.processHeatmapData.
  set (m := fold_left (Page.heatmap_step dayjs_ddd dayjs_isoWeek dayjs_year) trades []).
  assert (Hkeys := fun key => heatmap_step_keys dayjs_ddd dayjs_isoWeek dayjs_year
                                trades [] key).
  fold m in Hkeys.
  assert (Hhalves : forall t,
             includes_char "|" (dayjs_ddd (or_empty (Types.entry_time t))) = false
             /\ includes_char "|" ("Week "
                  +:+ dayjs_isoWeek (or_empty (Types.entry_time t)) +:+ "-"
                  +:+ dayjs_year (or_empty (Types.entry_time t))) = false).
  { intros t. destruct (Hbars (or_empty (Types.entry_time t))) as (Hd & Hi & Hy).
    split; [exact Hd |]. rewrite !includes_app, Hi, Hy. reflexivity. }
  split.
  - intros weekday week. split.
    + intros (point & Hin & Hx & Hy).
      apply in_map_iff in Hin. destruct Hin as ([k w] & <- & Hin).
      assert (Hk : In k (map fst m)) by (apply in_map_iff; now exists (k, w)).
      apply Hkeys in Hk. destruct Hk as [[] | (t & Ht & Hentry & ->)].
      exists t. split; [exact Ht | split; [exact Hentry |]].
      destruct (Hhalves t) as [Hd Hw].
      destruct (heatmap_entry_halves _ _ w Hd Hw) as [H1 H2].
      rewrite <- Hx, <- Hy. split; assumption.
    + intros (t & Ht & Hentry & -> & ->).
      set (key := dayjs_ddd (or_empty (Types.entry_time t)) +:+ "|" +:+ "Week "
                  +:+ dayjs_isoWeek (or_empty (Types.entry_time t)) +:+ "-"
                  +:+ dayjs_year (or_empty (Types.entry_time t))).
      assert (Hk : In key (map fst m))
        by (apply Hkeys; right; exists t; now repeat split).
      apply in_map_iff in Hk. destruct Hk as ([k w] & Hfst & Hin).
      cbn [fst] in Hfst. subst k.
      exists (Page.heatmap_entry (key, w)).
      split; [apply in_map_iff; now exists (key, w) |].
      destruct (Hhalves t) as [Hd Hw].
      exact (heatmap_entry_halves _ _ w Hd Hw).
  - rewrite length_map.
    exact (heatmap_step_length dayjs_ddd dayjs_isoWeek dayjs_year trades []).
Qed.

Lemma heatmap_cells_are_the_trades_cells_witness :
  (forall ts, includes_char "|" (MoreExamples.always_monday ts) = false
              /\ includes_char "|" (MoreExamples.always_week_1 ts) = false
              /\ includes_char "|" (MoreExamples.always_2024 ts) = false)
  /\ (length (Page.processHeatmapData MoreExamples.always_monday
                MoreExamples.always_week_1 MoreExamples.always_2024
                MoreExamples.timed_trades)
      <= length (List.filter (fun t => truthy_str (Types.entry_time t))
                             MoreExamples.timed_trades))%nat.
Proof.
  assert (H : forall ts,
             includes_char "|" (MoreExamples.always_monday ts) = false
             /\ includes_char "|" (MoreExamples.always_week_1 ts) = false
             /\ includes_char "|" (MoreExamples.always_2024 ts) = false)
    by (intros ts; repeat split).
  split; [exact H |].
  exact (proj2 (heatmap_cells_are_the_trades_cells _ _ _
                  MoreExamples.timed_trades H)).
Defined.

(** ** The heatmap's best day *)

Lemma gtb_not_NaN (x y : number) :
  gtb x y = true -> isNaN x = false /\ isNaN y = false.
Proof. unfold gtb. destruct x, y; try discriminate; now split. Qed.

Lemma leb_ltb_trans (x y z : number) :
  leb x y = true -> ltb y z = true -> ltb x z = true.
Proof.
  destruct x as [a| | |], y as [b| | |], z as [c| | |];
    try discriminate; try reflexivity.
  rewrite leb_fin, !ltb_fin. intros H1 H2.
  apply bool_decide_eq_true_1 in H1. apply bool_decide_eq_true_1 in H2.
  apply bool_decide_eq_true_2. eapply Qcle_lt_trans; eassumption.
Qed.

(** What [weekdays.reduce] keeps: an average above the one it started from,
    which is that of the day it names, and which no average of a day it
    went through exceeds. *)
Lemma bestDay_fold (data : list Page.HeatmapPoint) (days : list string) :
  forall best,
    isNaN (snd best) = false ->
    let r := fold_left (ReturnHeatmap.bestDay_step data) days best in
    isNaN (snd r) = false
    /\ leb (snd best) (snd r) = true
    /\ (r = best
        \/ (In (fst r) days /\ snd r = ReturnHeatmap.dayAvg data (fst r)
            /\ gtb (snd r) (snd best) = true))
    /\ Forall (fun day => gtb (ReturnHeatmap.dayAvg data day) (snd r) = false) days.
Proof.
  induction days as [|day days IH]; intros best Hbest; cbv zeta; cbn [fold_left].
  - repeat split; [exact Hbest | now apply leb_refl | now left | constructor].
  - set (best' := ReturnHeatmap.bestDay_step data best day).
    assert (Hstep :
      isNaN (snd best') = false
      /\ leb (snd best) (snd best') = true
      /\ (forall a, isNaN a = false -> leb (snd best') a = true ->
                    gtb (ReturnHeatmap.dayAvg data day) a = false)
      /\ (best' = best
          \/ (fst best' = day /\ snd best' = ReturnHeatmap.dayAvg data day
              /\ gtb (snd best') (snd best) = true))).
    { unfold best', ReturnHeatmap.bestDay_step.
      destruct (gtb (ReturnHeatmap.dayAvg data day) (snd best)) eqn:E; cbn [fst snd].
      - assert (Havg : isNaN (ReturnHeatmap.dayAvg data day) = false)
          by exact (proj1 (gtb_not_NaN _ _ E)).
        repeat split; [exact Havg | now apply ltb_leb | | right; now repeat split].
        intros a _ Ha. now apply leb_true_not_gtb.
      - repeat split; [exact Hbest | now apply leb_refl | | now left].
        intros a Hna Ha.
        destruct (isNaN (ReturnHeatmap.dayAvg data day)) eqn:Havg.
        { destruct (gtb (ReturnHeatmap.dayAvg data day) a) eqn:Hcontra;
            [| reflexivity].
          apply gtb_not_NaN in Hcontra. destruct Hcontra. congruence. }
        apply leb_true_not_gtb. eapply leb_trans; [| exact Ha].
        now apply ltb_false_leb. }
    destruct Hstep as (Hnan & Hle1 & Hday & Hsel).
    destruct (IH best' Hnan) as (Hnan' & Hle & Hin & Hall). cbv zeta in *.
    set (r := fold_left (ReturnHeatmap.bestDay_step data) days best') in *.
    split; [exact Hnan' |].
    split; [eapply leb_trans; eassumption |].
    split; [| constructor; [exact (Hday _ Hnan' Hle) | exact Hall]].
    destruct Hin as [Heq | (Hin & Hval & Hgt)].
    + destruct Hsel as [Hsame | (Hd & Hv & Hgt)]; [left; congruence |].
      right. rewrite Heq. repeat split; [now left | now rewrite Hv, Hd | exact Hgt].
    + right. repeat split; [now right | exact Hval |].
      unfold gtb in *. exact (leb_ltb_trans _ _ _ Hle1 Hgt).
Qed.

(** X18: whatever the heatmap data ([NaN] and infinite values included),
    either no weekday has an average above [-Infinity] and the Best day is
    [N/A], or the Best day is one of the seven weekdays, its average is
    above [-Infinity], and no weekday has an average above it, a weekday
    without data counting with an average of 0. *)
Theorem best_day_has_greatest_average (data : list Page.HeatmapPoint) :
  (ReturnHeatmap.bestDay data = "N/A"
   /\ Forall (fun day => gtb (ReturnHeatmap.dayAvg data day) NInf = false)
             ReturnHeatmap.weekdays)
  \/ (In (ReturnHeatmap.bestDay data) ReturnHeatmap.weekdays
      /\ gtb (ReturnHeatmap.dayAvg data (ReturnHeatmap.bestDay data)) NInf = true
      /\ Forall (fun day =>
                   gtb (ReturnHeatmap.dayAvg data day)
                       (ReturnHeatmap.dayAvg data (ReturnHeatmap.bestDay data))
                   = false)
                ReturnHeatmap.weekdays).
Proof.
  destruct (bestDay_fold data ReturnHeatmap.weekdays (EmptyString, NInf) eq_refl)
    as (_ & _ & Hsel & Hall).
  cbv zeta in *. fold (ReturnHeatmap.bestDay_acc data) in *.
  unfold ReturnHeatmap.bestDay.
  destruct Hsel as [Heq | (Hin & Hval & Hgt)].
  - left. rewrite Heq in *. cbn [fst snd] in *. split; [reflexivity | exact Hall].
  - right.
    assert (Hday : String.eqb (fst (ReturnHeatmap.bestDay_acc data)) EmptyString
                   = false).
    { destruct (String.eqb_spec (fst (ReturnHeatmap.bestDay_acc data)) EmptyString)
        as [Hempty | _]; [| reflexivity].
      rewrite Hempty in Hin. exfalso.
      repeat (destruct Hin as [Hin | Hin]; [discriminate |]). exact Hin. }
    rewrite Hday, <- Hval. cbn [snd] in Hgt. now repeat split.
Qed.

(** ** The heatmap's colours *)

Lemma abs_fin (v : Qc) : exists w, Math_abs (Fin v) = Fin w /\ qz 0 <= w.
Proof.
  unfold Math_abs, num. rewrite ltb_fin. case_bool_decide as H.
  - exists (- v). split; [reflexivity | qc_linear].
  - exists v. split; [reflexivity | now apply Qcnot_lt_le].
Qed.

Lemma abs_not_NaN (x : number) : isNaN x = false -> isNaN (Math_abs x) = false.
Proof.
  destruct x as [a| | |]; try easy. intros _.
  now destruct (abs_fin a) as (w & -> & _).
Qed.

Lemma absMax_not_NaN (data : list Page.HeatmapPoint) :
  Forall (fun d => isNaN (Page.value d) = false) data ->
  isNaN (ReturnHeatmap.absMax data) = false.
Proof.
  intros Hdata.
  assert (Hvals : Forall (fun x => isNaN x = false)
                         (ReturnHeatmap.values data ++ [num 0])).
  { apply Forall_app. split; [now apply Forall_map | now constructor]. }
  assert (Hmember : forall x,
             x = PInf \/ x = NInf \/ In x (ReturnHeatmap.values data ++ [num 0]) ->
             isNaN x = false).
  { intros x [-> | [-> | Hin]]; [reflexivity | reflexivity |].
    exact (proj1 (List.Forall_forall _ _) Hvals x Hin). }
  assert (Hmin : isNaN (ReturnHeatmap.minValue data) = false).
  { apply Hmember. unfold ReturnHeatmap.minValue, Math_min_spread.
    destruct (fold_min_spec _ PInf eq_refl Hvals) as ([-> | Hin] & _); auto. }
  assert (Hmax : isNaN (ReturnHeatmap.maxValue data) = false).
  { apply Hmember. unfold ReturnHeatmap.maxValue, Math_max_spread.
    destruct (fold_max_spec _ NInf eq_refl Hvals) as ([-> | Hin] & _); auto. }
  unfold ReturnHeatmap.absMax.
  destruct (Math_max_spec _ _ (abs_not_NaN _ Hmin) (abs_not_NaN _ Hmax))
    as ([-> | ->] & _); now apply abs_not_NaN.
Qed.

(** The share of the greatest magnitude that a value takes. *)
Lemma intensity_bounds (v : Qc) (M : number) :
  isNaN M = false ->
  exists i,
    Math_min (div (Math_abs (Fin v)) (Math_max M (num 1))) (num 1) = Fin i
    /\ qz 0 <= i /\ i <= qz 1.
Proof.
  intros HM. destruct (abs_fin v) as (w & -> & Hw).
  assert (Hdiv : exists q, div (Fin w) (Math_max M (num 1)) = Fin q /\ qz 0 <= q).
  { destruct M as [m| | |]; try discriminate.
    - destruct (Math_max_fin m (qz 1)) as (m' & Hm' & _ & H1 & _).
      unfold num. rewrite Hm'.
      assert (Hpos : qz 0 < m')
        by (eapply Qclt_le_trans; [| exact H1]; reflexivity).
      destruct (div_by_positive w m' Hpos) as (-> & Hnn & _).
      eexists. split; [reflexivity | now apply Hnn].
    - exists (qz 0). split; [reflexivity | discriminate].
    - destruct (div_by_positive w (qz 1) eq_refl) as (Hq & Hnn & _).
      change (Math_max NInf (num 1)) with (Fin (qz 1)). rewrite Hq.
      eexists. split; [reflexivity | now apply Hnn]. }
  destruct Hdiv as (q & -> & Hq).
  destruct (Math_min_fin q (qz 1)) as (i & Hi & _ & H1 & Hsel).
  exists i. split; [exact Hi | split; [| exact H1]].
  destruct Hsel as [-> | ->]; [exact Hq | discriminate].
Qed.

Lemma alpha_bounds (i : Qc) :
  qz 0 <= i -> i <= qz 1 ->
  exists a,
    Math_min (add (mul (Fin i) (dec 7 10)) (dec 3 10)) (num 1) = Fin a
    /\ qz 3 / qz 10 <= a /\ a <= qz 1.
Proof.
  intros H0 H1.
  change (add (mul (Fin i) (dec 7 10)) (dec 3 10))
    with (Fin (i * (qz 7 / qz 10) + qz 3 / qz 10)).
  destruct (Math_min_fin (i * (qz 7 / qz 10) + qz 3 / qz 10) (qz 1))
    as (a & Ha & _ & Hle & Hsel).
  exists a. split; [exact Ha | split; [| exact Hle]].
  destruct Hsel as [-> | ->]; [| discriminate].
  qc_linear.
Qed.

Lemma channel_intensity (i : Qc) :
  qz 0 <= i ->
  exists c,
    Math_min (mul (Fin i) (num 255)) (num 255) = Fin c
    /\ qz 0 <= c /\ c <= qz 255.
Proof.
  intros H0. change (mul (Fin i) (num 255)) with (Fin (i * qz 255)).
  destruct (Math_min_fin (i * qz 255) (qz 255)) as (c & Hc & _ & Hle & Hsel).
  exists c. split; [exact Hc | split; [| exact Hle]].
  destruct Hsel as [-> | ->]; [| discriminate].
  qc_linear.
Qed.

Lemma green_channel (c : Qc) :
  qz 0 <= c -> c <= qz 255 ->
  exists z, Math_floor (add (num 150) (mul (Fin c) (dec 3 10))) = num z
            /\ (150 <= z <= 226)%Z.
Proof.
  intros H0 H1. eexists. split; [reflexivity |]. split.
  - change 150%Z with (Qfloor (this (qz 150))). apply Qfloor_Qc_le. qc_linear.
  - change 226%Z with (Qfloor (this (qz 150 + qz 255 * (qz 3 / qz 10)))).
    apply Qfloor_Qc_le. qc_linear.
Qed.

Lemma red_channel (c : Qc) :
  qz 0 <= c -> c <= qz 255 ->
  exists z, Math_floor (add (num 200) (mul (Fin c) (dec 2 10))) = num z
            /\ (200 <= z <= 251)%Z.
Proof.
  intros H0 H1. eexists. split; [reflexivity |]. split.
  - change 200%Z with (Qfloor (this (qz 200))). apply Qfloor_Qc_le. qc_linear.
  - change 251%Z with (Qfloor (this (qz 200 + qz 255 * (qz 2 / qz 10)))).
    apply Qfloor_Qc_le. qc_linear.
Qed.

(** X19: when no value of the heatmap data is [NaN], the colour of a cell
    with a finite value is the neutral grey or an [rgba] colour that is
    well formed: its three channels are whole numbers from 0 to 255 and its
    opacity lies between 0.3 and 1.  A positive value is drawn with a green
    channel from 150 to 226 beside red 34 and blue 94, any other with a red
    channel from 200 to 251 beside green 68 and blue 68. *)
Theorem heatmap_colours_are_well_formed (data : list Page.HeatmapPoint) (v : Qc) :
  Forall (fun d => isNaN (Page.value d) = false) data ->
  match ReturnHeatmap.getColor data (Some (Fin v)) with
  | ReturnHeatmap.Hex code => code = "#4B5563"
  | ReturnHeatmap.Rgba r g b alpha =>
      (exists zr zg zb : Z,
          r = num zr /\ g = num zg /\ b = num zb
          /\ (0 <= zr <= 255)%Z /\ (0 <= zg <= 255)%Z /\ (0 <= zb <= 255)%Z
          /\ if gtb (Fin v) (num 0)
             then zr = 34%Z /\ (150 <= zg <= 226)%Z /\ zb = 94%Z
             else (200 <= zr <= 251)%Z /\ zg = 68%Z /\ zb = 68%Z)
      /\ leb (dec 3 10) alpha = true /\ leb alpha (num 1) = true
  end.
Proof.
  intros Hdata. unfold ReturnHeatmap.getColor.
  destruct (ltb (Math_abs (Fin v)) (dec 1 100)); [reflexivity |]. cbv zeta.
  destruct (intensity_bounds v _ (absMax_not_NaN data Hdata)) as (i & -> & H0 & H1).
  destruct (alpha_bounds i H0 H1) as (a & -> & Ha0 & Ha1).
  destruct (channel_intensity i H0) as (c & -> & Hc0 & Hc1).
  assert (Halpha : leb (dec 3 10) (Fin a) = true /\ leb (Fin a) (num 1) = true).
  { unfold dec, num. rewrite !leb_fin.
    split; now apply bool_decide_eq_true_2. }
  destruct (gtb (Fin v) (num 0)).
  - destruct (green_channel c Hc0 Hc1) as (z & -> & Hz).
    split; [| exact Halpha].
    exists 34%Z, z, 94%Z. repeat split; lia.
  - destruct (red_channel c Hc0 Hc1) as (z & -> & Hz).
    split; [| exact Halpha].
    exists z, 68%Z, 68%Z. repeat split; lia.
Qed.

Lemma heatmap_colours_are_well_formed_witness :
  Forall (fun d => isNaN (Page.value d) = false)
         [Page.mkHeatmapPoint "Tue" "Week 1-2024" (num 2)]
  /\ match ReturnHeatmap.getColor
             [Page.mkHeatmapPoint "Tue" "Week 1-2024" (num 2)] (Some (Fin (qz 1))) with
     | ReturnHeatmap.Hex _ => True
     | ReturnHeatmap.Rgba _ _ _ alpha => leb alpha (num 1) = true
     end.
Proof.
  assert (H : Forall (fun d => isNaN (Page.value d) = false)
                     [Page.mkHeatmapPoint "Tue" "Week 1-2024" (num 2)])
    by (repeat constructor).
  split; [exact H |].
  pose proof (heatmap_colours_are_well_formed _ (qz 1) H) as Hc.
  destruct (ReturnHeatmap.getColor _ _); [exact I | exact (proj2 (proj2 Hc))].
Defined.

(** ** The heatmap's counts *)

(** A value the statistics keep is above or below zero, never both. *)
Lemma shown_value_sign (v : number) :
  gtb (Math_abs v) (dec 1 100) = true ->
  gtb v (num 0) = negb (ltb v (num 0)).
Proof.
  destruct v as [a| | |]; [| reflexivity | reflexivity | discriminate].
  unfold Math_abs, num, dec. rewrite ltb_fin.
  case_bool_decide as Hneg; rewrite !gtb_fin; intros Habs;
    apply bool_decide_eq_true_1 in Habs; cbn [negb].
  - apply bool_decide_eq_false_2. intros Hpos. qc_linear.
  - apply bool_decide_eq_true_2. qc_linear.
Qed.

Lemma split_by_sign (vs : list number) :
  Forall (fun v => gtb v (num 0) = negb (ltb v (num 0))) vs ->
  (length (List.filter (fun v => gtb v (num 0)) vs)
   + length (List.filter (fun v => ltb v (num 0)) vs))%nat = length vs.
Proof.
  induction 1 as [|v vs Hv _ IH]; [reflexivity |].
  cbn [List.filter]. rewrite Hv.
  destruct (ltb v (num 0)); cbn [negb length]; lia.
Qed.

(** X20: every cell that the heatmap's statistics keep (a magnitude above
    0.01) is counted once, as positive or as negative: the two counts add
    up to the number of cells the average return is taken over, and no
    kept value is [NaN]. *)
Theorem heatmap_counts_cover_shown_cells (data : list Page.HeatmapPoint) :
  (ReturnHeatmap.positiveCount data + ReturnHeatmap.negativeCount data)%nat
  = length (ReturnHeatmap.shown_values data)
  /\ Forall (fun v => isNaN v = false) (ReturnHeatmap.shown_values data).
Proof.
  assert (Hshown : Forall (fun v => gtb (Math_abs v) (dec 1 100) = true)
                          (ReturnHeatmap.shown_values data)).
  { apply List.Forall_forall. intros v Hin.
    now apply List.filter_In in Hin. }
  split.
  - apply split_by_sign. eapply Forall_impl; [exact Hshown |].
    intros v. apply shown_value_sign.
  - eapply Forall_impl; [exact Hshown |]. intros [a| | |]; easy.
Qed.
